(** * The space layer of the similarity-search library

    A shallow embedding of

      - [include/space.h]                  ([Space], [DataFileInputState]),
      - [src/space/space_word_embed.cc]    ([WordEmbedSpace]),
      - [src/space/space_sparse_vector.cc] ([SpaceSparseVector]),

    followed by the properties of the specification that were checked
    against it.

    Conventions.  [std::string] is [string].  A C++ function that can
    throw or log fatally returns an [outcome].  The distance type
    [dist_t] ([float] or [double]) stays abstract: everything the code
    does with such a value goes through the standard library or through
    the numeric kernels, both of which are interfaces here (type
    classes), with an exact instance ([literal]) on which the functions
    can be run. *)

From Stdlib Require Import ZArith NArith String Ascii DecimalString DecimalN.
From Stdlib Require Import Sorted Permutation Lia.
From stdpp Require Import base option list.

Local Open Scope string_scope.
Local Open Scope N_scope.
Local Open Scope nat_scope.

(* ================================================================== *)
(** * Part I: the program                                              *)
(* ================================================================== *)

(** ** Outcomes *)

(** Severity of a [LOG(...)] line. *)
Inductive LogSeverity : Set := LIB_ERROR | LIB_FATAL.

(** How a call ends when it does not return.
    - [runtime_error what]: [throw std::runtime_error(what)], also through
      [PREPARE_RUNTIME_ERR]/[THROW_RUNTIME_ERR]; [what] is the text
      streamed into the error.
    - [fatal log]: a [LOG(LIB_FATAL)] line was written; [log] holds the
      lines logged on the way, the fatal one last.  Modelled from the
      spec: the logging macros ([logging.h]) are not among the sources;
      a fatal line ends the call (sections 4.2 and 9: the parse
      failure is fatal and terminates). *)
Inductive failure : Type :=
| runtime_error (what : string)
| fatal (log : list (LogSeverity * string)).

Inductive outcome (A : Type) : Type :=
| Return (a : A)
| Raise (f : failure).
Arguments Return {A} a.
Arguments Raise {A} f.

Definition bind {A B} (m : outcome A) (k : A -> outcome B) : outcome B :=
  match m with
  | Return a => k a
  | Raise f => Raise f
  end.

Notation "x <-- m ;; k" := (bind m (fun x => k))
  (at level 100, m at next level, right associativity).

(** Modelled from the spec: the [CHECK] macro ([logging.h] is not among
    the sources).  The specification's section 4.3 has a violated
    requirement of [distance] fail; a failed check is a fatal log line
    that carries the text of the condition. *)
Definition CHECK (cond : bool) (text : string) : outcome unit :=
  if cond then Return tt
  else Raise (fatal [(LIB_FATAL, "Check failed: " ++ text)]).

(** ** Characters and text *)

(** [isspace] of [<cctype>] in the "C" locale: space, and the control
    characters 9 to 13 (tab, line feed, vertical tab, form feed,
    carriage return). *)
Definition isspace (c : ascii) : bool :=
  let n := nat_of_ascii c in
  (n =? 32) || ((9 <=? n) && (n <=? 13)).

(** Modelled from the spec: [HasWhiteSpace] ([utils.h] is not among the
    sources): whether the text holds a whitespace character. *)
Fixpoint HasWhiteSpace (s : string) : bool :=
  match s with
  | EmptyString => false
  | String c s' => isspace c || HasWhiteSpace s'
  end.

(** [out << n] for an unsigned integer: its decimal digits. *)
Definition dec (n : N) : string := NilEmpty.string_of_uint (N.to_uint n).

(** [s.substr(pos)]: the text from position [pos] on. *)
Fixpoint substr_from (pos : nat) (s : string) : string :=
  match pos, s with
  | 0, _ => s
  | S p, String _ s' => substr_from p s'
  | S _, EmptyString => EmptyString
  end.

(** [s.substr(0, n)]: the first [n] characters. *)
Fixpoint substr_to (n : nat) (s : string) : string :=
  match n, s with
  | S p, String c s' => String c (substr_to p s')
  | _, _ => EmptyString
  end.

(** ** Objects and input state *)

Definition IdType := Z.

(** Modelled from the spec: the label of an object is an integer or
    absent (section 3). *)
Definition LabelType := option Z.
Definition EMPTY_LABEL : LabelType := None.

(** Modelled from the spec: [Object] ([object.h] is not among the
    sources): an identifier, a label and an immutable byte payload
    (section 3). *)
Record Object : Type := mkObject {
  obj_id : IdType;
  obj_label : LabelType;
  data : list Byte.byte
}.

Definition datalength (o : Object) : nat := length (data o).

(** [DataFileInputState]: the open file, seen as the lines that are
    still to be read, and the number of lines read so far. *)
Record DataFileInputState : Type := mkInputState {
  inp_file_ : list string;
  line_num_ : nat
}.

(** ** [Space<dist_t>] (space.h) *)

(** A [Space] object: the private flag [bIndexPhase] of the base class and
    the data members [F] of the derived class. *)
Record Space (F : Type) : Type := mkSpace {
  bIndexPhase : bool;
  derived : F
}.
Arguments mkSpace {F} _ _.
Arguments bIndexPhase {F} _.
Arguments derived {F} _.

(** Objects created with [new] live in a store; a pointer is an index
    into it, and [new] appends. *)
Abbreviation store F := (list (Space F)) (only parsing).
Abbreviation pointer := nat (only parsing).

(** The two pure virtual members every derived class overrides.
    [HiddenClone] receives the store and the members of [*this] and
    returns the store it leaves and the pointer it returns. *)
Class SpaceVirtuals (dist_t F : Type) : Type := {
  HiddenDistance : F -> Object -> Object -> outcome dist_t;
  HiddenClone : store F -> F -> store F * pointer
}.

(** [void SetIndexPhase() const { bIndexPhase = true; }] *)
Definition SetIndexPhase {F} (s : Space F) : Space F :=
  mkSpace true (derived s).

(** [void SetQueryPhase() const { bIndexPhase = false; }] *)
Definition SetQueryPhase {F} (s : Space F) : Space F :=
  mkSpace false (derived s).

(** The text of the error [IndexTimeDistance] throws: [__func__] is the
    name of the function. *)
Definition phase_violation_text : string :=
  "The public function " ++ "IndexTimeDistance" ++
  " function is accessible only during the indexing phase!".

(** [Space::IndexTimeDistance] *)
Definition IndexTimeDistance {dist_t F} `{SpaceVirtuals dist_t F}
    (s : Space F) (obj1 obj2 : Object) : outcome dist_t :=
  if negb (bIndexPhase s) then
    Raise (runtime_error phase_violation_text)
  else
    HiddenDistance (derived s) obj1 obj2.

(** [p->SetIndexPhase()] and [p->SetQueryPhase()] through a pointer;
    [None] when [p] points at no object. *)
Definition call_SetIndexPhase {F} (h : store F) (p : pointer) : option (store F) :=
  s ← h !! p; Some (<[p := SetIndexPhase s]> h).

Definition call_SetQueryPhase {F} (h : store F) (p : pointer) : option (store F) :=
  s ← h !! p; Some (<[p := SetQueryPhase s]> h).

(** [Space::Clone], called on the object [this] points at: the result of
    [HiddenClone] is put into the index phase and returned. *)
Definition Clone {dist_t F} `{SpaceVirtuals dist_t F}
    (h : store F) (this : pointer) : option (store F * pointer) :=
  s ← h !! this;
  let '(h1, res) := HiddenClone h (derived s) in
  h2 ← call_SetIndexPhase h1 res;
  Some (h2, res).

(** The specification's name for the failure of the phase gate. *)
Definition PhaseViolation : failure := runtime_error phase_violation_text.

(** ** [WordEmbedSpace<dist_t>] (space_word_embed.cc) *)

(** Modelled from the spec: the metric selector ([space_word_embed.h] is
    not among the sources) has exactly two recognized values
    (section 4.3); [kEmbedDistOther] stands for any other code the
    member could hold, which the functions below treat as a bug. *)
Inductive EmbedDistSpace : Set :=
| kEmbedDistL2
| kEmbedDistCosine
| kEmbedDistOther (code : Z).

#[global] Instance EmbedDistSpace_eq_dec : EqDecision EmbedDistSpace.
Proof. solve_decision. Defined.

(** The numeric kernels ([distcomp.h]), external collaborators: they are
    handed the two payloads and the number of elements. *)
Class Kernels (dist_t : Type) : Type := {
  sizeof_dist_t : nat;
  L2NormSIMD : list Byte.byte -> list Byte.byte -> nat -> dist_t;
  CosineSimilarity : list Byte.byte -> list Byte.byte -> nat -> dist_t
}.

(** [VectorSpace<dist_t>::CreateStrFromObj], the generic dense-vector
    serialization the word-embedding space delegates to (its file is not
    among the sources). *)
Class DenseText : Type := {
  VectorSpace_CreateStrFromObj : Object -> string -> string
}.

Module WordEmbedSpace.

(** The data members of a [WordEmbedSpace]. *)
Record t : Set := mk { distType_ : EmbedDistSpace }.

(** [WordEmbedSpace::CreateStrFromObj] *)
Definition CreateStrFromObj `{DenseText} (pObj : Object) (externId : string)
    : outcome string :=
  if HasWhiteSpace externId then
    Raise (runtime_error
             ("The id '" ++ externId ++ "' has the white space (but it shouldn't)"))
  else
    let res := VectorSpace_CreateStrFromObj pObj "" in
    let res := if negb (String.eqb externId "") then externId ++ " " ++ res
               else res in
    Return res.

(** The search loop of [ReadNextObjStr]: the position of the first
    whitespace character, [-1] (here [None]) when there is none. *)
Fixpoint first_space (i : nat) (strObj : string) : option nat :=
  match strObj with
  | EmptyString => None
  | String c rest => if isspace c then Some i else first_space (S i) rest
  end.

(** [WordEmbedSpace::ReadNextObjStr].  The result holds the state the
    call leaves and, when the call returns, [None] for [false] (end of
    data) or [Some (strObj, externId)] for [true].  [label] is left as it
    was. *)
Definition ReadNextObjStr (inpState : DataFileInputState)
    : DataFileInputState * outcome (option (string * string)) :=
  match inp_file_ inpState with
  | [] => (inpState, Return None)
  | strObj :: rest =>
      let inpState := mkInputState rest (S (line_num_ inpState)) in
      match first_space 0 strObj with
      | None =>
          (inpState,
           Raise (runtime_error
                    ("No white space in line #" ++
                     dec (N.of_nat (line_num_ inpState)) ++ " line: 'strObj'")))
      | Some pos =>
          let externId := substr_to pos strObj in
          let strObj := substr_from (pos + 1) strObj in
          (inpState, Return (Some (strObj, externId)))
      end
  end.

(** The names of the two metrics ([SPACE_WORD_EMBED_DIST_L2] and
    [SPACE_WORD_EMBED_DIST_COSINE] are defined outside the sources). *)
Class MetricNames : Type := {
  SPACE_WORD_EMBED_DIST_L2 : string;
  SPACE_WORD_EMBED_DIST_COSINE : string
}.

(** The internal error on an unrecognized selector, whose code is
    streamed into the text. *)
Definition invalid_code (code : Z) : failure :=
  runtime_error ("Bug: Invalid distance type code: " ++
                 NilEmpty.string_of_int (Z.to_int code)).

(** [WordEmbedSpace::ToString] *)
Definition ToString `{MetricNames} (this : t) : outcome string :=
  match distType_ this with
  | kEmbedDistL2 =>
      Return ("word embeddings, distance type: " ++ SPACE_WORD_EMBED_DIST_L2)
  | kEmbedDistCosine =>
      Return ("word embeddings, distance type: " ++ SPACE_WORD_EMBED_DIST_COSINE)
  | kEmbedDistOther code => Raise (invalid_code code)
  end.

(** [WordEmbedSpace::HiddenDistance] *)
Definition HiddenDistance {dist_t} `{Kernels dist_t}
    (this : t) (obj1 obj2 : Object) : outcome dist_t :=
  _ <-- CHECK (0 <? datalength obj1) "obj1->datalength() > 0" ;;
  _ <-- CHECK (datalength obj1 =? datalength obj2)
              "obj1->datalength() == obj2->datalength()" ;;
  let x := data obj1 in
  let y := data obj2 in
  let length := datalength obj1 / sizeof_dist_t in
  match distType_ this with
  | kEmbedDistL2 => Return (L2NormSIMD x y length)
  | kEmbedDistCosine => Return (CosineSimilarity x y length)
  | kEmbedDistOther code => Raise (invalid_code code)
  end.

(** [WordEmbedSpace::HiddenClone]: [new WordEmbedSpace<dist_t>(distType_)].
    The new object starts with [bIndexPhase = true], the default member
    initializer of [Space]. *)
Definition HiddenClone (h : store t) (this : t) : store t * pointer :=
  ((h ++ [mkSpace true (mk (distType_ this))])%list, length h).

End WordEmbedSpace.

#[global] Instance WordEmbedSpace_virtuals {dist_t} `{Kernels dist_t}
    : SpaceVirtuals dist_t WordEmbedSpace.t := {
  HiddenDistance := WordEmbedSpace.HiddenDistance;
  HiddenClone := WordEmbedSpace.HiddenClone
}.

(** The specification's names for the two failures of this space. *)
Definition DimensionMismatch (f : failure) : Prop :=
  f = fatal [(LIB_FATAL, "Check failed: obj1->datalength() > 0")] \/
  f = fatal [(LIB_FATAL, "Check failed: obj1->datalength() == obj2->datalength()")].

Definition ValidationError (externId : string) : failure :=
  runtime_error ("The id '" ++ externId ++ "' has the white space (but it shouldn't)").

(** ** Formatted input from a [std::stringstream] *)

(** The stream is the text that is still to be read.  An extraction
    [str >> x] first skips whitespace (the sentry), fails at the end of
    the input, and otherwise hands the text to [std::num_get]. *)
Fixpoint skipws (s : string) : string :=
  match s with
  | String c s' => if isspace c then skipws s' else s
  | EmptyString => EmptyString
  end.

Definition digit_of (c : ascii) : option N :=
  let n := N_of_ascii c in
  if ((48 <=? n) && (n <=? 57))%N then Some (n - 48)%N else None.

(** Reads the digits at the head of [s]: their value on top of [acc], and
    the text left. *)
Fixpoint get_digits (s : string) (acc : N) : N * string :=
  match s with
  | String c s' =>
      match digit_of c with
      | Some d => get_digits s' (10 * acc + d)%N
      | None => (acc, s)
      end
  | EmptyString => (acc, s)
  end.

Definition starts_with_digit (s : string) : bool :=
  match s with
  | String c _ => bool_decide (is_Some (digit_of c))
  | EmptyString => false
  end.

Definition UINT32_MAX : N := 4294967295.

(** [std::num_get] for [uint32_t] in base ten: an optional sign, then at
    least one digit; all digits are consumed; a value that does not fit
    sets [failbit].  A minus sign negates the value modulo [2^32], as
    libstdc++ does. *)
Definition num_get_uint32 (s : string) : option (N * string) :=
  let '(negative, s1) :=
    match s with
    | String "+" r => (false, r)
    | String "-" r => (true, r)
    | _ => (false, s)
    end in
  if starts_with_digit s1 then
    let '(n, rest) := get_digits s1 0 in
    if (n <=? UINT32_MAX)%N then
      Some (if negative then ((UINT32_MAX + 1 - n) mod (UINT32_MAX + 1))%N else n, rest)
    else None
  else None.

(** What the standard library does with a [dist_t]: [num_get] reads a
    value at the head of a text and says how many characters it
    consumed; [put_max_digits10] is [out << setprecision(max_digits10)
    << v] with [floatfield] unset; [put_default] is [err << v];
    [dist_eq_dec] is [==]. *)
Class NumText (dist_t : Type) : Type := {
  num_get : string -> option (dist_t * nat);
  put_max_digits10 : dist_t -> string;
  put_default : dist_t -> string;
  dist_eq_dec :: EqDecision dist_t
}.

(** [str >> id] for [uint32_t id]. *)
Definition extract_id (str : string) : option (N * string) :=
  match skipws str with
  | EmptyString => None
  | s => num_get_uint32 s
  end.

(** [str >> val] for [dist_t val]. *)
Definition extract_val {dist_t} `{NumText dist_t} (str : string)
    : option (dist_t * string) :=
  match skipws str with
  | EmptyString => None
  | s => match num_get s with
         | Some (v, n) => Some (v, substr_from n s)
         | None => None
         end
  end.

(** ** [SpaceSparseVector<dist_t>] (space_sparse_vector.cc) *)

(** [SparseVectElem<dist_t>], which the class calls [ElemType]. *)
Record SparseVectElem (dist_t : Type) : Type := ElemType {
  id_ : N;
  val_ : dist_t
}.
Arguments ElemType {dist_t} _ _.
Arguments id_ {dist_t} _.
Arguments val_ {dist_t} _.

#[global] Instance SparseVectElem_eq_dec {dist_t} `{EqDecision dist_t}
  : EqDecision (SparseVectElem dist_t).
Proof. solve_decision. Defined.

(** The two helpers [ReadSparseVec] calls on its line ([object.h] and
    [utils.h] are not among the sources): [extractLabel] returns the
    label and the line without it, [ReplaceSomePunct] the line with some
    punctuation replaced. *)
Class LineHelpers : Type := {
  extractLabel : string -> LabelType * string;
  ReplaceSomePunct : string -> string
}.

(** The pure virtual members that pack a vector into an object and back
    (their overrides are not among the sources). *)
Class SparseStorage (dist_t : Type) : Type := {
  CreateObjFromVect : IdType -> LabelType -> list (SparseVectElem dist_t) -> Object;
  CreateVectFromObj : Object -> list (SparseVectElem dist_t)
}.

Module SpaceSparseVector.

Section Members.
Context {dist_t : Type} `{NumText dist_t} `{LineHelpers} `{SparseStorage dist_t}.

(** The loop [while (str >> id && str >> val) v.push_back(ElemType(id, val))].
    Every round consumes a digit, so the length of the text bounds the
    number of rounds ([read_pairs_fuel] below). *)
Fixpoint read_pairs (fuel : nat) (str : string) : list (SparseVectElem dist_t) :=
  match fuel with
  | 0 => []
  | S fuel =>
      match extract_id str with
      | None => []
      | Some (id, str) =>
          match extract_val str with
          | None => []
          | Some (val, str) => ElemType id val :: read_pairs fuel str
          end
      end
  end.

Definition tokenize (str : string) : list (SparseVectElem dist_t) :=
  read_pairs (String.length str) str.

(** Modelled from the spec: [operator<] of [SparseVectElem] (its header
    is not among the sources) orders by index (section 3). *)
Definition elem_lt (a b : SparseVectElem dist_t) : bool := (id_ a <? id_ b)%N.

(** [sort(v.begin(), v.end())]: a sorted rearrangement.  [std::sort]
    leaves the order of equal elements open; this one keeps it.  Elements
    are equal here only when an index is repeated, so the choice shows
    only in which of the two pairs an error names first; the general
    statements below name the two pairs without saying which is which. *)
Fixpoint insert_sorted (e : SparseVectElem dist_t) (l : list (SparseVectElem dist_t))
    : list (SparseVectElem dist_t) :=
  match l with
  | [] => [e]
  | x :: l' => if elem_lt x e then x :: insert_sorted e l' else e :: l
  end.

Definition sort (v : list (SparseVectElem dist_t)) : list (SparseVectElem dist_t) :=
  foldr insert_sorted [] v.

(** The two exceptions of the checking loop, with what is streamed into
    them. *)
Inductive sparse_exception : Type :=
| RepeatingID (prevId : N) (prevVal : dist_t) (id : N) (val : dist_t) (i : nat)
| IdsNotSorted (prevId : N) (prevVal : dist_t) (id : N) (val : dist_t) (i : nat).

Definition what (e : sparse_exception) : string :=
  match e with
  | RepeatingID prevId prevVal id val i =>
      "Repeating ID: prevId = " ++ dec prevId ++ " prev val: " ++ put_default prevVal
      ++ " current id: " ++ dec id ++ " val = " ++ put_default val
      ++ " (i=" ++ dec (N.of_nat i) ++ ")"
  | IdsNotSorted prevId prevVal id val i =>
      "But: Ids are not sorted, prevId = " ++ dec prevId ++ " prev val: "
      ++ put_default prevVal ++ " current id: " ++ dec id ++ " val = "
      ++ put_default val ++ " (i=" ++ dec (N.of_nat i) ++ ")"
  end.

(** The loop [for (unsigned i = 1; i < v.size(); ++i)], at index [i] with
    [prev = v[i-1]] and [rest] the elements from [v[i]] on. *)
Fixpoint check_from (i : nat) (prev : SparseVectElem dist_t)
    (rest : list (SparseVectElem dist_t)) : option sparse_exception :=
  match rest with
  | [] => None
  | cur :: rest' =>
      let prevId := id_ prev in
      let id := id_ cur in
      if (id =? prevId)%N then
        Some (RepeatingID prevId (val_ prev) id (val_ cur) i)
      else if (id <? prevId)%N then
        Some (IdsNotSorted prevId (val_ prev) id (val_ cur) i)
      else check_from (S i) cur rest'
  end.

Definition check (v : list (SparseVectElem dist_t)) : option sparse_exception :=
  match v with
  | [] => None
  | first :: rest => check_from 1 first rest
  end.

(** The [catch] block: the exception is logged as an error, then the
    line is logged as fatal. *)
Definition parse_failure (e : sparse_exception) (line_num : nat) (line : string)
    : failure :=
  fatal [(LIB_ERROR, "Exception: " ++ what e);
         (LIB_FATAL, "Failed to parse the line # " ++ dec (N.of_nat line_num)
                     ++ ": '" ++ line ++ "'")].

(** [SpaceSparseVector::ReadSparseVec].  The stream [str] is built from
    the line as it is passed in; [extractLabel] and [ReplaceSomePunct]
    then change the local [line], which is read again only by the fatal
    log line. *)
Definition ReadSparseVec (line : string) (line_num : nat)
    : outcome (LabelType * list (SparseVectElem dist_t)) :=
  let str := line in
  let '(label, line) := extractLabel line in
  let line := ReplaceSomePunct line in
  let v := tokenize str in
  let v := sort v in
  match check v with
  | Some e => Raise (parse_failure e line_num line)
  | None => Return (label, v)
  end.

(** [SpaceSparseVector::CreateObjFromStr] *)
Definition CreateObjFromStr (id : IdType) (label : LabelType) (s : string)
    (pInpStateBase : option DataFileInputState) : outcome Object :=
  match pInpStateBase with
  | None => Raise (runtime_error "Bug: unexpected NULL pointer type")
  | Some inpState =>
      match ReadSparseVec s (line_num_ inpState) with
      | Return (label, vec) => Return (CreateObjFromVect id label vec)
      | Raise f => Raise f
      end
  end.

(** [SpaceSparseVector::ApproxEqual]: [target1 == target2]. *)
Definition ApproxEqual (obj1 obj2 : Object) : bool :=
  bool_decide (CreateVectFromObj obj1 = CreateVectFromObj obj2).

(** The loop of [CreateStrFromObj]; [i] says whether the index is past
    zero. *)
Fixpoint put_elems (i : bool) (target : list (SparseVectElem dist_t)) : string :=
  match target with
  | [] => ""
  | e :: rest =>
      (if i then " " else "") ++ dec (id_ e) ++ " " ++ put_max_digits10 (val_ e)
      ++ put_elems true rest
  end.

(** [SpaceSparseVector::CreateStrFromObj]; [externId] is ignored. *)
Definition CreateStrFromObj (pObj : Object) (externId : string) : string :=
  put_elems false (CreateVectFromObj pObj).

(** [SpaceSparseVector::ReadNextObjStr]: the next line as it is. *)
Definition ReadNextObjStr (inpState : DataFileInputState)
    : DataFileInputState * option (string * string) :=
  match inp_file_ inpState with
  | [] => (inpState, None)
  | strObj :: rest =>
      (mkInputState rest (S (line_num_ inpState)), Some (strObj, ""))
  end.

End Members.
End SpaceSparseVector.

(** ** Instances on which the program runs *)

(** *** Exact decimal values

    A value is the decimal literal it is written as: reading takes the
    longest head of the text made of digits, signs, the point and the
    exponent letter, and writing gives the literal back.  Nothing is
    rounded, so [1.5] and [2.0] are what they are in [double].  The
    instance is textual where [float] and [double] are numeric ([2.0]
    and [2] are two values here, and [2.0] is written back as [2.0]);
    it serves to run the functions on examples, and the general
    statements do not depend on it. *)
Definition literal : Type := string.

Definition literal_char (c : ascii) : bool :=
  bool_decide (is_Some (digit_of c))
  || (c =? ".")%char || (c =? "+")%char || (c =? "-")%char
  || (c =? "e")%char || (c =? "E")%char.

Fixpoint literal_head (s : string) : string :=
  match s with
  | String c s' => if literal_char c then String c (literal_head s') else ""
  | EmptyString => ""
  end.

#[global] Instance literal_text : NumText literal := {
  num_get s :=
    match literal_head s with
    | EmptyString => None
    | t => Some (t, String.length t)
    end;
  put_max_digits10 v := v;
  put_default v := v;
  dist_eq_dec := String.string_dec
}.

(** *** The line helpers

    Modelled from the spec: [Object::extractLabel] takes an optional label
    token with the prefix [LABEL_PREFIX] off the line (section 4.2,
    step 1): the integer between the prefix and the next whitespace is
    the label, and the line goes on after that whitespace.
    [ReplaceSomePunct] turns punctuation into blanks (step 2); the
    specification does not list the characters, so commas and colons
    stand for them. *)
Definition LABEL_PREFIX : string := "label:".

Fixpoint until_space (s : string) : string * string :=
  match s with
  | EmptyString => (EmptyString, EmptyString)
  | String c s' =>
      if isspace c then (EmptyString, s)
      else let '(a, b) := until_space s' in (String c a, b)
  end.

Definition extractLabel_spec (fileLine : string) : LabelType * string :=
  if String.prefix LABEL_PREFIX fileLine then
    let '(token, rest) := until_space (substr_from (String.length LABEL_PREFIX) fileLine) in
    match NilEmpty.int_of_string token with
    | Some d => (Some (Z.of_int d), skipws rest)
    | None => (EMPTY_LABEL, fileLine)
    end
  else (EMPTY_LABEL, fileLine).

Fixpoint ReplaceSomePunct_spec (s : string) : string :=
  match s with
  | EmptyString => EmptyString
  | String c s' =>
      String (if (c =? ",")%char || (c =? ":")%char then " "%char else c)
             (ReplaceSomePunct_spec s')
  end.

#[global] Instance spec_helpers : LineHelpers := {
  extractLabel := extractLabel_spec;
  ReplaceSomePunct := ReplaceSomePunct_spec
}.

(** *** A simple storage for exact decimal values

    Each element is packed as four bytes of index (low byte first), one
    byte of length, and the characters of the literal. *)
Definition byte_of_N (n : N) : Byte.byte :=
  default Byte.x00 (Byte.of_N (n mod 256)).

Definition pack_uint32 (n : N) : list Byte.byte :=
  [byte_of_N n; byte_of_N (n / 256); byte_of_N (n / 65536); byte_of_N (n / 16777216)].

Definition pack_elem (e : SparseVectElem literal) : list Byte.byte :=
  (pack_uint32 (id_ e)
   ++ byte_of_N (N.of_nat (String.length (val_ e)))
   :: map byte_of_ascii (list_ascii_of_string (val_ e)))%list.

Fixpoint unpack_elems (fuel : nat) (b : list Byte.byte) : list (SparseVectElem literal) :=
  match fuel, b with
  | S fuel, b0 :: b1 :: b2 :: b3 :: len :: rest =>
      let id := (Byte.to_N b0 + 256 * Byte.to_N b1 + 65536 * Byte.to_N b2
                 + 16777216 * Byte.to_N b3)%N in
      let n := N.to_nat (Byte.to_N len) in
      ElemType id (string_of_list_ascii (map ascii_of_byte (take n rest)))
      :: unpack_elems fuel (drop n rest)
  | _, _ => []
  end.

#[global] Instance literal_storage : SparseStorage literal := {
  CreateObjFromVect id label v := mkObject id label (concat (map pack_elem v));
  CreateVectFromObj o := unpack_elems (length (data o)) (data o)
}.

(** *** Kernels over bytes

    Every payload byte is one element ([sizeof] is one); the L2 kernel
    sums the squared differences and the cosine kernel the products of
    the first [n] elements. *)
Definition byte_l2 (x y : list Byte.byte) (n : nat) : Z :=
  foldr Z.add 0%Z
    (zip_with (fun a b => let d := (Z.of_N (Byte.to_N a) - Z.of_N (Byte.to_N b))%Z in (d * d)%Z)
              (take n x) (take n y)).

Definition byte_dot (x y : list Byte.byte) (n : nat) : Z :=
  foldr Z.add 0%Z
    (zip_with (fun a b => (Z.of_N (Byte.to_N a) * Z.of_N (Byte.to_N b))%Z)
              (take n x) (take n y)).

#[global] Instance byte_kernels : Kernels Z := {
  sizeof_dist_t := 1;
  L2NormSIMD := byte_l2;
  CosineSimilarity := byte_dot
}.

(** *** A dense serialization: the payload bytes in decimal, separated by
    blanks. *)
Fixpoint put_bytes (i : bool) (b : list Byte.byte) : string :=
  match b with
  | [] => ""
  | x :: rest => (if i then " " else "") ++ dec (Byte.to_N x) ++ put_bytes true rest
  end.

#[global] Instance byte_text : DenseText := {
  VectorSpace_CreateStrFromObj o _ := put_bytes false (data o)
}.


(** ** Files (space.h) *)

(** What [ifstream inp_file_(name)] finds: the lines of the file, or
    nothing when the file cannot be opened. *)
Class FileSystem : Type := {
  open_ifstream : string -> option (list string)
}.

(** The constructor [DataFileInputState::DataFileInputState]. *)
Definition DataFileInputState_ctor `{FileSystem} (inpFileName : string)
    : outcome DataFileInputState :=
  match open_ifstream inpFileName with
  | None =>
      Raise (runtime_error ("Cannot open file: " ++ inpFileName ++ " for reading"))
  | Some lines => Return (mkInputState lines 0)
  end.

(** [SpaceSparseVector::OpenReadFileHeader]: the state is created and no
    header is read. *)
Definition SpaceSparseVector_OpenReadFileHeader `{FileSystem} (inpFileName : string)
    : outcome DataFileInputState :=
  DataFileInputState_ctor inpFileName.

(** [DataFileOutputState]: the open file, seen as the text written to it
    so far. *)
Record DataFileOutputState : Type := mkOutputState {
  out_file_ : string
}.

(** [std::endl]: a line feed. *)
Definition endl : string := String (ascii_of_nat 10) EmptyString.

(** [Space::WriteNextObj], over the [CreateStrFromObj] of the derived
    class: the text is computed first, so nothing is written when that
    throws. *)
Definition WriteNextObj (CreateStrFromObj : Object -> string -> outcome string)
    (obj : Object) (externId : string) (outState : DataFileOutputState)
    : outcome DataFileOutputState :=
  text <-- CreateStrFromObj obj externId ;;
  Return (mkOutputState (out_file_ outState ++ text ++ endl)).

(** [std::getline] over a whole text: the lines that successive calls
    give.  [acc] is the line read so far.  A line ends at a line feed,
    which is dropped, or at the end of the text; at the end of the text
    a call that reads no character fails. *)
Fixpoint getlines (acc : string) (text : string) : list string :=
  match text with
  | EmptyString => match acc with EmptyString => [] | _ => [acc] end
  | String c rest =>
      if Ascii.eqb c (ascii_of_nat 10) then acc :: getlines EmptyString rest
      else getlines (acc ++ String c EmptyString) rest
  end.

(** Calling a [ReadNextObjStr] again and again, at most [n] times, as a
    reader of a whole file does: the records read, and the state left. *)
Fixpoint read_records
    (read : DataFileInputState -> DataFileInputState * option (string * string))
    (n : nat) (inpState : DataFileInputState)
    : list (string * string) * DataFileInputState :=
  match n with
  | 0 => ([], inpState)
  | S n =>
      match read inpState with
      | (inpState', Some record) =>
          let '(records, final) := read_records read n inpState' in
          (record :: records, final)
      | (inpState', None) => ([], inpState')
      end
  end.

(** A file system with one file, for running the functions. *)
#[global] Instance one_file : FileSystem := {
  open_ifstream name :=
    if String.eqb name "data.txt" then Some ["10 1.5 5 2.0"; "7 3"] else None
}.

(** Whether a text holds a line feed. *)
Fixpoint has_line_feed (s : string) : bool :=
  match s with
  | EmptyString => false
  | String c rest => Ascii.eqb c (ascii_of_nat 10) || has_line_feed rest
  end.

(** ** Predicates of the statements *)

(** The order of [operator<] on elements and its reflexive closure. *)
Definition id_lt {dist_t : Type} (e x : SparseVectElem dist_t) : Prop :=
  (id_ e < id_ x)%N.
Definition id_le {dist_t : Type} (e x : SparseVectElem dist_t) : Prop :=
  (id_ e <= id_ x)%N.

(** The value of a run of digits read on top of [acc]. *)
Fixpoint digits_value (d : Decimal.uint) (acc : N) : N :=
  match d with
  | Decimal.Nil => acc
  | Decimal.D0 d => digits_value d (10 * acc + 0)%N
  | Decimal.D1 d => digits_value d (10 * acc + 1)%N
  | Decimal.D2 d => digits_value d (10 * acc + 2)%N
  | Decimal.D3 d => digits_value d (10 * acc + 3)%N
  | Decimal.D4 d => digits_value d (10 * acc + 4)%N
  | Decimal.D5 d => digits_value d (10 * acc + 5)%N
  | Decimal.D6 d => digits_value d (10 * acc + 6)%N
  | Decimal.D7 d => digits_value d (10 * acc + 7)%N
  | Decimal.D8 d => digits_value d (10 * acc + 8)%N
  | Decimal.D9 d => digits_value d (10 * acc + 9)%N
  end.

(** A text is [delimited] when it is empty or starts with a blank: what
    can follow a value in the text [CreateStrFromObj] writes. *)
Definition delimited (rest : string) : Prop :=
  rest = ""%string \/ exists r, rest = String " " r.

(** The value [x] is read back from what is written for it: extracting
    from a blank, the written text and a delimited rest gives [x] and
    leaves the rest.  For [float] and [double] this is what writing
    with [max_digits10] digits is for. *)
Definition reads_back {dist_t : Type} `{NumText dist_t} (x : dist_t) : Prop :=
  forall rest, delimited rest ->
    extract_val (String " " (put_max_digits10 x ++ rest)) = Some (x, rest).

(** The vectors of a valid object: strictly increasing indices that fit
    [uint32_t]. *)
Definition valid_sparse {dist_t : Type} (v : list (SparseVectElem dist_t)) : Prop :=
  Sorted id_lt v /\ Forall (fun e => (id_ e <= UINT32_MAX)%N) v.

(* ================================================================== *)
(** * Part II: properties                                              *)
(* ================================================================== *)

Local Open Scope list_scope.

(** ** The phase gate and [Clone] *)

Section PhaseGate.
Context {dist_t F : Type} `{SpaceVirtuals dist_t F}.

Lemma IndexTimeDistance_query_phase (s : Space F) (a b : Object) :
  bIndexPhase s = false -> IndexTimeDistance s a b = Raise PhaseViolation.
Proof. unfold IndexTimeDistance. intros ->. reflexivity. Qed.

Lemma IndexTimeDistance_index_phase (s : Space F) (a b : Object) :
  bIndexPhase s = true -> IndexTimeDistance s a b = HiddenDistance (derived s) a b.
Proof. unfold IndexTimeDistance. intros ->. reflexivity. Qed.

Lemma call_SetIndexPhase_lookup (h h' : store F) (p : pointer) :
  call_SetIndexPhase h p = Some h' ->
  exists s, h !! p = Some s /\ h' !! p = Some (SetIndexPhase s) /\
            forall q, q <> p -> h' !! q = h !! q.
Proof.
  unfold call_SetIndexPhase. destruct (h !! p) as [s|] eqn:E; simpl; [|discriminate].
  intros [= <-]. exists s. split; [reflexivity|]. split.
  - apply list_lookup_insert_eq. eapply lookup_lt_Some, E.
  - intros q Hq. apply list_lookup_insert_ne. congruence.
Qed.

Lemma call_SetQueryPhase_lookup (h h' : store F) (p : pointer) :
  call_SetQueryPhase h p = Some h' ->
  exists s, h !! p = Some s /\ h' !! p = Some (SetQueryPhase s) /\
            forall q, q <> p -> h' !! q = h !! q.
Proof.
  unfold call_SetQueryPhase. destruct (h !! p) as [s|] eqn:E; simpl; [|discriminate].
  intros [= <-]. exists s. split; [reflexivity|]. split.
  - apply list_lookup_insert_eq. eapply lookup_lt_Some, E.
  - intros q Hq. apply list_lookup_insert_ne. congruence.
Qed.

Lemma Clone_result_in_index_phase (h h' : store F) (this res : pointer) :
  Clone h this = Some (h', res) -> bIndexPhase <$> h' !! res = Some true.
Proof.
  unfold Clone. destruct (h !! this) as [s|]; simpl; [|discriminate].
  destruct (HiddenClone h (derived s)) as [h1 r].
  destruct (call_SetIndexPhase h1 r) as [h2|] eqn:E; simpl; [|discriminate].
  intros [= <- <-].
  destruct (call_SetIndexPhase_lookup _ _ _ E) as (s1 & _ & -> & _).
  reflexivity.
Qed.

End PhaseGate.

(** C1.  In the query phase [IndexTimeDistance] fails with the
    PhaseViolation error, whatever the space and the objects; in the
    index phase the gate lets the call through and its outcome is that
    of the underlying metric [HiddenDistance] on the same objects, so
    the call returns the distance [d] whenever the metric does.  The
    same holds right after [SetQueryPhase] and [SetIndexPhase]. *)
Theorem IndexTimeDistance_phase_gate {dist_t F : Type} `{SpaceVirtuals dist_t F}
    (s : Space F) (a b : Object) :
  (bIndexPhase s = false -> IndexTimeDistance s a b = Raise PhaseViolation) /\
  (bIndexPhase s = true ->
     IndexTimeDistance s a b = HiddenDistance (derived s) a b /\
     forall d, HiddenDistance (derived s) a b = Return d ->
               IndexTimeDistance s a b = Return d) /\
  IndexTimeDistance (SetQueryPhase s) a b = Raise PhaseViolation /\
  IndexTimeDistance (SetIndexPhase s) a b = HiddenDistance (derived s) a b.
Proof.
  split; [apply IndexTimeDistance_query_phase|].
  split.
  - intros Hs. pose proof (IndexTimeDistance_index_phase s a b Hs) as E.
    split; [exact E|]. intros d Hd. congruence.
  - split; reflexivity.
Qed.

(** The gate at work on a word-embedding space over bytes. *)
Lemma IndexTimeDistance_phase_gate_witness :
  IndexTimeDistance (mkSpace true (WordEmbedSpace.mk kEmbedDistL2))
    (mkObject 1%Z None [Byte.x01; Byte.x02])
    (mkObject 2%Z None [Byte.x04; Byte.x06]) = Return 25%Z /\
  IndexTimeDistance (SetQueryPhase (mkSpace true (WordEmbedSpace.mk kEmbedDistL2)))
    (mkObject 1%Z None [Byte.x01; Byte.x02])
    (mkObject 2%Z None [Byte.x04; Byte.x06]) = @Raise Z PhaseViolation.
Proof.
  destruct (IndexTimeDistance_phase_gate (dist_t := Z)
              (mkSpace true (WordEmbedSpace.mk kEmbedDistL2))
              (mkObject 1%Z None [Byte.x01; Byte.x02])
              (mkObject 2%Z None [Byte.x04; Byte.x06])) as (_ & Hi & Hq & _).
  split; [|exact Hq].
  destruct (Hi eq_refl) as [_ Hd]. apply Hd. reflexivity.
Defined.

(** C2.  [Clone] returns an object in the index phase, whatever the
    flag of the object it is called on.  For a [WordEmbedSpace] the
    clone is a new object of the store: the pointer is fresh, the object
    it is called on and every other object are left as they were, the
    clone carries the metric of the original, and switching the phase of
    either afterwards leaves the other alone. *)
Theorem Clone_index_phase_independent :
  (forall (dist_t F : Type) (V : SpaceVirtuals dist_t F)
          (h h' : store F) (this res : pointer),
      Clone h this = Some (h', res) -> bIndexPhase <$> h' !! res = Some true) /\
  (forall (dist_t : Type) (K : Kernels dist_t)
          (h : store WordEmbedSpace.t) (this : pointer) (s : Space WordEmbedSpace.t),
      h !! this = Some s ->
      exists (h' : store WordEmbedSpace.t) (res : pointer),
        Clone (dist_t := dist_t) h this = Some (h', res) /\
        res <> this /\ h !! res = None /\
        h' !! res = Some (mkSpace true (WordEmbedSpace.mk
                            (WordEmbedSpace.distType_ (derived s)))) /\
        (forall p, p <> res -> h' !! p = h !! p) /\
        (forall h'', call_SetQueryPhase h' res = Some h'' -> h'' !! this = Some s) /\
        (forall h'', call_SetQueryPhase h' this = Some h'' ->
                     h'' !! res = h' !! res)).
Proof.
  split.
  - intros dist_t F V h h' this res. apply Clone_result_in_index_phase.
  - intros dist_t K h this s Hs.
    assert (Hlt : this < length h) by (eapply lookup_lt_Some, Hs).
    set (c := mkSpace true (WordEmbedSpace.mk (WordEmbedSpace.distType_ (derived s)))).
    assert (Hnew : (h ++ [c]) !! length h = Some c)
      by (rewrite lookup_app_r, Nat.sub_diag by lia; reflexivity).
    exists (h ++ [c]), (length h).
    assert (Hother : forall p, p <> length h -> (h ++ [c]) !! p = h !! p).
    { intros p Hp. destruct (decide (p < length h)) as [Hl|Hl].
      - apply lookup_app_l, Hl.
      - rewrite (lookup_ge_None_2 h p) by lia.
        apply lookup_ge_None_2. rewrite length_app. simpl. lia. }
    split.
    { unfold Clone. rewrite Hs. simpl. unfold WordEmbedSpace.HiddenClone.
      fold c. unfold call_SetIndexPhase. rewrite Hnew. simpl.
      f_equal. f_equal. apply list_insert_id. exact Hnew. }
    split; [lia|].
    split; [apply lookup_ge_None_2; lia|].
    split; [exact Hnew|].
    split; [exact Hother|].
    split.
    + intros h'' E.
      destruct (call_SetQueryPhase_lookup _ _ _ E) as (_ & _ & _ & Hq).
      rewrite Hq by lia. rewrite Hother by lia. exact Hs.
    + intros h'' E.
      destruct (call_SetQueryPhase_lookup _ _ _ E) as (_ & _ & _ & Hq).
      apply Hq. lia.
Qed.

(** Cloning a word-embedding space that is in the query phase. *)
Lemma Clone_index_phase_independent_witness :
  exists (h' : store WordEmbedSpace.t) (res : pointer),
    Clone (dist_t := Z) [mkSpace false (WordEmbedSpace.mk kEmbedDistCosine)] 0
      = Some (h', res) /\
    res <> 0 /\
    h' !! res = Some (mkSpace true (WordEmbedSpace.mk kEmbedDistCosine)) /\
    bIndexPhase <$> h' !! res = Some true.
Proof.
  destruct Clone_index_phase_independent as [Hflag Hwe].
  destruct (Hwe Z byte_kernels
              [mkSpace false (WordEmbedSpace.mk kEmbedDistCosine)] 0
              (mkSpace false (WordEmbedSpace.mk kEmbedDistCosine)) eq_refl)
    as (h' & res & Hc & Hne & _ & Hres & _).
  exists h', res. split; [exact Hc|]. split; [exact Hne|]. split; [exact Hres|].
  exact (Hflag Z _ _ _ h' 0 res Hc).
Defined.

(** ** The word-embedding space *)

Lemma first_space_shift (s : string) (i : nat) :
  WordEmbedSpace.first_space i s = (fun p => i + p) <$> WordEmbedSpace.first_space 0 s.
Proof.
  revert i. induction s as [|c s IH]; intros i; simpl; [reflexivity|].
  destruct (isspace c); simpl.
  - f_equal. lia.
  - rewrite (IH (S i)), (IH 1).
    destruct (WordEmbedSpace.first_space 0 s); simpl; [f_equal; lia|reflexivity].
Qed.

Lemma first_space_None (s : string) :
  WordEmbedSpace.first_space 0 s = None <-> HasWhiteSpace s = false.
Proof.
  induction s as [|c s IH]; simpl; [split; reflexivity|].
  destruct (isspace c); simpl; [split; discriminate|].
  rewrite first_space_shift.
  destruct (WordEmbedSpace.first_space 0 s); simpl; split; intros E.
  - discriminate.
  - apply IH in E. discriminate.
  - apply IH. reflexivity.
  - reflexivity.
Qed.

(** The position found splits the line at its first whitespace
    character. *)
Lemma first_space_Some (s : string) (pos : nat) :
  WordEmbedSpace.first_space 0 s = Some pos ->
  exists c, s = (substr_to pos s ++ String c (substr_from (pos + 1) s))%string /\
            isspace c = true /\ HasWhiteSpace (substr_to pos s) = false.
Proof.
  revert pos. induction s as [|c s IH]; intros pos; simpl; [discriminate|].
  destruct (isspace c) eqn:Ec.
  - intros [= <-]. exists c. simpl. auto.
  - rewrite first_space_shift.
    destruct (WordEmbedSpace.first_space 0 s) as [p|] eqn:Ep; simpl; [|discriminate].
    intros [= <-]. destruct (IH p eq_refl) as (c' & Hs & Hc & Hw).
    exists c'. simpl. rewrite Ec, Hw. simpl. rewrite <- Hs. auto.
Qed.

(** A line with whitespace is split at the first one, and the line
    counter goes up by one. *)
Lemma WordEmbed_ReadNextObjStr_splits (inpState : DataFileInputState)
    (line : string) (rest : list string) :
  inp_file_ inpState = line :: rest ->
  HasWhiteSpace line = true ->
  exists (externId strObj : string) (c : ascii),
    line = (externId ++ String c strObj)%string /\
    HasWhiteSpace externId = false /\ isspace c = true /\
    WordEmbedSpace.ReadNextObjStr inpState =
      (mkInputState rest (S (line_num_ inpState)), Return (Some (strObj, externId))).
Proof.
  intros Hf Hw. unfold WordEmbedSpace.ReadNextObjStr. rewrite Hf.
  destruct (WordEmbedSpace.first_space 0 line) as [pos|] eqn:E.
  - destruct (first_space_Some _ _ E) as (c & Hs & Hc & Hn).
    exists (substr_to pos line), (substr_from (pos + 1) line), c. auto.
  - apply first_space_None in E. congruence.
Qed.

(** A line without whitespace: the line counter goes up by one and the
    error carries the new line number and a fixed text. *)
Lemma WordEmbed_ReadNextObjStr_no_space (inpState : DataFileInputState)
    (line : string) (rest : list string) :
  inp_file_ inpState = line :: rest ->
  HasWhiteSpace line = false ->
  WordEmbedSpace.ReadNextObjStr inpState =
    (mkInputState rest (S (line_num_ inpState)),
     Raise (runtime_error ("No white space in line #"
                           ++ dec (N.of_nat (S (line_num_ inpState)))
                           ++ " line: 'strObj'")%string)).
Proof.
  intros Hf Hw. unfold WordEmbedSpace.ReadNextObjStr. rewrite Hf.
  apply first_space_None in Hw. rewrite Hw. reflexivity.
Qed.

(** C7, at the lines [cat] and [dog], each the first line of its file:
    the call fails, the line counter is one, and the two errors are the
    same text, which holds the line number and the word [strObj] where
    the content of the line was to stand. *)
Theorem WordEmbed_ReadNextObjStr_error_text :
  WordEmbedSpace.ReadNextObjStr (mkInputState ["cat"%string] 0) =
    (mkInputState [] 1,
     Raise (runtime_error "No white space in line #1 line: 'strObj'")) /\
  WordEmbedSpace.ReadNextObjStr (mkInputState ["dog"%string] 0) =
    (mkInputState [] 1,
     Raise (runtime_error "No white space in line #1 line: 'strObj'")).
Proof. split; reflexivity. Qed.

(** C10.  A line that begins with a whitespace character is read
    without error: the external identifier is empty and the record is
    everything after that first character. *)
Theorem WordEmbed_ReadNextObjStr_leading_space (inpState : DataFileInputState)
    (c : ascii) (line : string) (rest : list string) :
  inp_file_ inpState = String c line :: rest ->
  isspace c = true ->
  WordEmbedSpace.ReadNextObjStr inpState =
    (mkInputState rest (S (line_num_ inpState)), Return (Some (line, ""%string))).
Proof.
  intros Hf Hc. unfold WordEmbedSpace.ReadNextObjStr. rewrite Hf.
  simpl. rewrite Hc. reflexivity.
Qed.

Lemma WordEmbed_ReadNextObjStr_leading_space_witness :
  WordEmbedSpace.ReadNextObjStr (mkInputState [" 0.1 0.2"%string; "cat 1 2"%string] 7) =
    (mkInputState ["cat 1 2"%string] 8, Return (Some ("0.1 0.2"%string, ""%string))).
Proof.
  apply (WordEmbed_ReadNextObjStr_leading_space
           (mkInputState [" 0.1 0.2"%string; "cat 1 2"%string] 7) " "%char);
    reflexivity.
Defined.

Lemma eqb_empty (s : string) : String.eqb s "" = true <-> s = ""%string.
Proof. apply String.eqb_eq. Qed.

(** C8, as the code has it.  An identifier with a whitespace character
    is refused with the ValidationError; one without is written in
    front of the dense payload text, separated from it by one blank,
    unless it is empty: then the payload text is written alone. *)
Theorem WordEmbed_CreateStrFromObj_identifier `{DenseText}
    (pObj : Object) (externId : string) :
  (HasWhiteSpace externId = true ->
     WordEmbedSpace.CreateStrFromObj pObj externId = Raise (ValidationError externId)) /\
  (HasWhiteSpace externId = false -> externId <> ""%string ->
     WordEmbedSpace.CreateStrFromObj pObj externId =
       Return (externId ++ " " ++ VectorSpace_CreateStrFromObj pObj "")%string) /\
  (externId = ""%string ->
     WordEmbedSpace.CreateStrFromObj pObj externId =
       Return (VectorSpace_CreateStrFromObj pObj "")).
Proof.
  unfold WordEmbedSpace.CreateStrFromObj. repeat split.
  - intros ->. reflexivity.
  - intros -> Hne. destruct (String.eqb externId "") eqn:E; [|reflexivity].
    apply eqb_empty in E. contradiction.
  - intros ->. reflexivity.
Qed.

Lemma WordEmbed_CreateStrFromObj_identifier_witness :
  WordEmbedSpace.CreateStrFromObj (mkObject 1%Z None [Byte.x01; Byte.x02]) "cat"
    = Return "cat 1 2"%string /\
  WordEmbedSpace.CreateStrFromObj (mkObject 1%Z None [Byte.x01; Byte.x02]) "c at"
    = Raise (ValidationError "c at") /\
  WordEmbedSpace.CreateStrFromObj (mkObject 1%Z None [Byte.x01; Byte.x02]) ""
    = Return "1 2"%string.
Proof.
  split; [|split].
  - destruct (WordEmbed_CreateStrFromObj_identifier
                (mkObject 1%Z None [Byte.x01; Byte.x02]) "cat") as (_ & Hgood & _).
    apply Hgood; [reflexivity|discriminate].
  - destruct (WordEmbed_CreateStrFromObj_identifier
                (mkObject 1%Z None [Byte.x01; Byte.x02]) "c at") as (Hbad & _).
    apply Hbad. reflexivity.
  - destruct (WordEmbed_CreateStrFromObj_identifier
                (mkObject 1%Z None [Byte.x01; Byte.x02]) "") as (_ & _ & Hempty).
    apply Hempty. reflexivity.
Defined.

(** C8 as the specification states it fails at the empty identifier: it
    holds no whitespace, and what is written is the payload text, not a
    blank followed by the payload text. *)
Lemma WordEmbed_CreateStrFromObj_empty_identifier :
  HasWhiteSpace "" = false /\
  WordEmbedSpace.CreateStrFromObj (mkObject 1%Z None [Byte.x01; Byte.x02]) ""
    = Return "1 2"%string /\
  WordEmbedSpace.CreateStrFromObj (mkObject 1%Z None [Byte.x01; Byte.x02]) ""
    <> Return ("" ++ " " ++ VectorSpace_CreateStrFromObj
                              (mkObject 1%Z None [Byte.x01; Byte.x02]) "")%string.
Proof. split; [reflexivity|]. split; [reflexivity|]. discriminate. Qed.

(** C9.  [HiddenDistance] of a word-embedding space fails with the
    DimensionMismatch error when the first payload is empty or the two
    payloads differ in length; when they have the same length, not
    zero, it returns what the L2 kernel or the cosine kernel computes
    on the two payloads, according to the metric of the space. *)
Theorem WordEmbed_HiddenDistance_dispatch {dist_t : Type} `{Kernels dist_t}
    (this : WordEmbedSpace.t) (obj1 obj2 : Object) :
  (datalength obj1 = 0 \/ datalength obj1 <> datalength obj2 ->
     exists f, WordEmbedSpace.HiddenDistance this obj1 obj2 = Raise f /\
               DimensionMismatch f) /\
  (0 < datalength obj1 -> datalength obj1 = datalength obj2 ->
     (WordEmbedSpace.distType_ this = kEmbedDistL2 ->
        WordEmbedSpace.HiddenDistance this obj1 obj2 =
          Return (L2NormSIMD (data obj1) (data obj2)
                             (datalength obj1 / sizeof_dist_t))) /\
     (WordEmbedSpace.distType_ this = kEmbedDistCosine ->
        WordEmbedSpace.HiddenDistance this obj1 obj2 =
          Return (CosineSimilarity (data obj1) (data obj2)
                                   (datalength obj1 / sizeof_dist_t)))).
Proof.
  unfold WordEmbedSpace.HiddenDistance, CHECK. split.
  - intros Hbad. destruct (0 <? datalength obj1) eqn:E0; simpl.
    + destruct (datalength obj1 =? datalength obj2) eqn:E1; simpl.
      * apply Nat.ltb_lt in E0. apply Nat.eqb_eq in E1. lia.
      * eexists. split; [reflexivity|]. right. reflexivity.
    + eexists. split; [reflexivity|]. left. reflexivity.
  - intros Hpos Heq.
    apply Nat.ltb_lt in Hpos. apply Nat.eqb_eq in Heq. rewrite Hpos, Heq. simpl.
    split; intros ->; reflexivity.
Qed.

Lemma WordEmbed_HiddenDistance_dispatch_witness :
  WordEmbedSpace.HiddenDistance (WordEmbedSpace.mk kEmbedDistCosine)
    (mkObject 1%Z None [Byte.x01; Byte.x02])
    (mkObject 2%Z None [Byte.x04; Byte.x06]) = Return 16%Z /\
  exists f, WordEmbedSpace.HiddenDistance (dist_t := Z) (WordEmbedSpace.mk kEmbedDistCosine)
              (mkObject 1%Z None [Byte.x01; Byte.x02])
              (mkObject 2%Z None [Byte.x04]) = Raise f /\ DimensionMismatch f.
Proof.
  split.
  - destruct (WordEmbed_HiddenDistance_dispatch (dist_t := Z)
                (WordEmbedSpace.mk kEmbedDistCosine)
                (mkObject 1%Z None [Byte.x01; Byte.x02])
                (mkObject 2%Z None [Byte.x04; Byte.x06])) as (_ & Hgood).
    destruct Hgood as (_ & Hcos); [unfold datalength; simpl; lia | reflexivity |].
    apply Hcos. reflexivity.
  - destruct (WordEmbed_HiddenDistance_dispatch (dist_t := Z)
                (WordEmbedSpace.mk kEmbedDistCosine)
                (mkObject 1%Z None [Byte.x01; Byte.x02])
                (mkObject 2%Z None [Byte.x04])) as (Hbad & _).
    apply Hbad. right. unfold datalength. simpl. lia.
Defined.

(** ** Reading from the stream *)

Lemma skipws_length (s : string) : String.length (skipws s) <= String.length s.
Proof.
  induction s as [|c s IH]; simpl; [lia|].
  destruct (isspace c); simpl; lia.
Qed.

Lemma substr_from_length (n : nat) (s : string) :
  String.length (substr_from n s) <= String.length s.
Proof.
  revert s. induction n as [|n IH]; intros [|c s]; simpl; try lia.
  specialize (IH s). lia.
Qed.

Lemma get_digits_length (s : string) (acc : N) :
  String.length (snd (get_digits s acc)) <= String.length s.
Proof.
  revert acc. induction s as [|c s IH]; intros acc; simpl; [lia|].
  destruct (digit_of c); simpl; [|lia]. specialize (IH (10 * acc + n)%N). lia.
Qed.

Lemma num_get_uint32_shorter (s r : string) (n : N) :
  num_get_uint32 s = Some (n, r) -> String.length r < String.length s.
Proof.
  unfold num_get_uint32.
  set (p := match s with
            | String "+" r0 => (false, r0)
            | String "-" r0 => (true, r0)
            | _ => (false, s)
            end).
  assert (Hp : String.length (snd p) <= String.length s).
  { subst p. destruct s as [|c s]; simpl; [lia|].
    destruct (Ascii.eqb_spec c "+") as [->|]; [simpl; lia|].
    destruct (Ascii.eqb_spec c "-") as [->|]; [simpl; lia|].
    destruct c as [[] [] [] [] [] [] [] []]; simpl; lia. }
  destruct p as [negative s1]. simpl in Hp.
  destruct s1 as [|c s1]; simpl; [discriminate|].
  destruct (digit_of c) as [d|] eqn:Ed; simpl; [|discriminate].
  pose proof (get_digits_length s1 (10 * 0 + d)%N) as Hl.
  destruct (get_digits s1 (10 * 0 + d)%N) as [m rest]. simpl in Hl.
  destruct (m <=? UINT32_MAX)%N; [|discriminate].
  intros [= _ <-]. simpl in Hp. lia.
Qed.

Lemma extract_id_shorter (s r : string) (n : N) :
  extract_id s = Some (n, r) -> String.length r < String.length s.
Proof.
  unfold extract_id. pose proof (skipws_length s) as Hs.
  destruct (skipws s) as [|c t] eqn:E; [discriminate|].
  intros Hn. apply num_get_uint32_shorter in Hn. lia.
Qed.

Section ReadPairs.
Context {dist_t : Type} `{NumText dist_t}.

Lemma extract_val_length (s r : string) (v : dist_t) :
  extract_val s = Some (v, r) -> String.length r <= String.length s.
Proof.
  unfold extract_val. pose proof (skipws_length s) as Hs.
  destruct (skipws s) as [|c t] eqn:E; [discriminate|].
  destruct (num_get (String c t)) as [[v' n]|]; [|discriminate].
  intros [= _ <-]. pose proof (substr_from_length n (String c t)). lia.
Qed.

Lemma read_pairs_fuel_irrelevant (f1 f2 : nat) (str : string) :
  String.length str <= f1 -> String.length str <= f2 ->
  SpaceSparseVector.read_pairs f1 str = SpaceSparseVector.read_pairs f2 str.
Proof.
  revert f2 str. induction f1 as [|f1 IH]; intros f2 str H1 H2.
  - destruct str; [|simpl in H1; lia]. destruct f2; reflexivity.
  - destruct f2 as [|f2].
    + destruct str; [|simpl in H2; lia]. reflexivity.
    + simpl. destruct (extract_id str) as [[id s1]|] eqn:Ei; [|reflexivity].
      destruct (extract_val s1) as [[val s2]|] eqn:Ev; [|reflexivity].
      apply extract_id_shorter in Ei. apply extract_val_length in Ev.
      f_equal. apply IH; lia.
Qed.

(** The loop is never cut short: more rounds than the length of the text
    read nothing more. *)
Lemma read_pairs_fuel (fuel : nat) (str : string) :
  String.length str <= fuel ->
  SpaceSparseVector.read_pairs fuel str = SpaceSparseVector.tokenize str.
Proof.
  intros Hf. unfold SpaceSparseVector.tokenize.
  apply read_pairs_fuel_irrelevant; [exact Hf|lia].
Qed.

End ReadPairs.

(** ** Sorting and the checking loop *)

Section SortAndCheck.
Context {dist_t : Type}.
Implicit Types (e x : SparseVectElem dist_t) (v l : list (SparseVectElem dist_t)).

Lemma elem_lt_spec e x : SpaceSparseVector.elem_lt e x = true <-> id_lt e x.
Proof. apply N.ltb_lt. Qed.

Lemma insert_sorted_perm e l : Permutation (SpaceSparseVector.insert_sorted e l) (e :: l).
Proof.
  induction l as [|x l IH]; simpl; [reflexivity|].
  destruct (SpaceSparseVector.elem_lt x e); [|reflexivity].
  rewrite IH. apply perm_swap.
Qed.

Lemma sort_perm v : Permutation (SpaceSparseVector.sort v) v.
Proof.
  induction v as [|e v IH]; simpl; [reflexivity|].
  rewrite insert_sorted_perm. apply perm_skip, IH.
Qed.

Lemma insert_sorted_hd e x l :
  id_le x e -> HdRel id_le x l -> HdRel id_le x (SpaceSparseVector.insert_sorted e l).
Proof.
  intros Hxe Hl. destruct l as [|y l]; simpl; [constructor; exact Hxe|].
  destruct (SpaceSparseVector.elem_lt y e); constructor;
    [inversion Hl; assumption | exact Hxe].
Qed.

Lemma insert_sorted_sorted e l :
  Sorted id_le l -> Sorted id_le (SpaceSparseVector.insert_sorted e l).
Proof.
  induction l as [|x l IH]; intros Hs; simpl.
  - repeat constructor.
  - inversion Hs as [|? ? Hl Hx]; subst.
    destruct (SpaceSparseVector.elem_lt x e) eqn:E.
    + constructor; [apply IH, Hl|].
      apply insert_sorted_hd; [|exact Hx].
      apply elem_lt_spec in E. unfold id_lt, id_le in *. lia.
    + constructor; [exact Hs|]. constructor.
      unfold id_le. unfold SpaceSparseVector.elem_lt in E.
      apply N.ltb_ge in E. exact E.
Qed.

(** [sort] rearranges its argument into non-decreasing order of index. *)
Lemma sort_sorted v : Sorted id_le (SpaceSparseVector.sort v).
Proof.
  induction v as [|e v IH]; simpl; [constructor|].
  apply insert_sorted_sorted, IH.
Qed.

(** A vector that is in order already is left as it is. *)
Lemma sort_of_sorted v : Sorted id_le v -> SpaceSparseVector.sort v = v.
Proof.
  induction v as [|e v IH]; intros Hs; simpl; [reflexivity|].
  inversion Hs as [|? ? Hv He]; subst. rewrite (IH Hv).
  destruct v as [|x v]; simpl; [reflexivity|].
  inversion He as [|? ? Hex]; subst.
  destruct (SpaceSparseVector.elem_lt x e) eqn:E; [|reflexivity].
  apply elem_lt_spec in E. unfold id_lt, id_le in *. lia.
Qed.

Lemma id_lt_sorted_le v : Sorted id_lt v -> Sorted id_le v.
Proof.
  induction 1 as [|e v Hs IH He]; constructor; [exact IH|].
  destruct He; constructor. unfold id_lt, id_le in *. lia.
Qed.

Lemma id_lt_sorted_NoDup v : Sorted id_lt v -> NoDup (map id_ v).
Proof.
  intros Hs. apply Sorted_StronglySorted in Hs;
    [|intros a b c; unfold id_lt; lia].
  induction Hs as [|e v Hs IH He]; simpl; constructor; [|exact IH].
  intros Hin. apply list_elem_of_In, in_map_iff in Hin.
  destruct Hin as (x & Hx & Hin).
  rewrite Forall_forall in He. specialize (He x).
  rewrite <- list_elem_of_In in Hin. specialize (He Hin).
  unfold id_lt in He. lia.
Qed.

(** What the checking loop finds in a vector whose indices do not
    decrease: nothing when they increase strictly, and otherwise the
    first two neighbours with the same index, reported as a repeated
    index. *)
Lemma check_from_sorted (rest : list (SparseVectElem dist_t)) (i : nat) (prev : SparseVectElem dist_t) :
  Sorted id_le (prev :: rest) ->
  match SpaceSparseVector.check_from i prev rest with
  | None => Sorted id_lt (prev :: rest)
  | Some exn =>
      exists (k : nat) (a b : SparseVectElem dist_t),
        exn = SpaceSparseVector.RepeatingID (id_ a) (val_ a) (id_ b) (val_ b) (i + k) /\
        id_ b = id_ a /\ (prev :: rest) !! k = Some a /\ rest !! k = Some b
  end.
Proof.
  revert i prev. induction rest as [|cur rest IH]; intros i prev Hs; simpl.
  - repeat constructor.
  - inversion Hs as [|? ? Hrest Hhd]; subst.
    inversion Hhd as [|? ? Hle]; subst. unfold id_le in Hle.
    destruct (N.eqb_spec (id_ cur) (id_ prev)) as [E|E].
    + exists 0, prev, cur. rewrite Nat.add_0_r. auto.
    + destruct (N.ltb_spec (id_ cur) (id_ prev)) as [L|L]; [lia|].
      specialize (IH (S i) cur Hrest).
      destruct (SpaceSparseVector.check_from (S i) cur rest) as [exn|].
      * destruct IH as (k & a & b & -> & Hab & Ha & Hb).
        exists (S k), a, b. rewrite Nat.add_succ_r. auto.
      * constructor; [exact IH|]. constructor. unfold id_lt. lia.
Qed.

Lemma check_sorted v :
  Sorted id_le v ->
  match SpaceSparseVector.check v with
  | None => Sorted id_lt v
  | Some exn =>
      exists (i : nat) (a b : SparseVectElem dist_t),
        exn = SpaceSparseVector.RepeatingID (id_ a) (val_ a) (id_ b) (val_ b) i /\
        id_ b = id_ a /\ 1 <= i /\ v !! (i - 1) = Some a /\ v !! i = Some b
  end.
Proof.
  destruct v as [|first rest]; intros Hs; simpl; [constructor|].
  pose proof (check_from_sorted rest 1 first Hs) as Hc.
  destruct (SpaceSparseVector.check_from 1 first rest) as [exn|]; [|exact Hc].
  destruct Hc as (k & a & b & -> & Hab & Ha & Hb).
  exists (1 + k), a, b. simpl. rewrite Nat.sub_0_r. auto with lia.
Qed.

(** Two neighbours with the same index mean a repeated index. *)
Lemma neighbours_not_NoDup v (i : nat) (a b : SparseVectElem dist_t) :
  1 <= i -> v !! (i - 1) = Some a -> v !! i = Some b -> id_ b = id_ a ->
  ~ NoDup (map id_ v).
Proof.
  intros Hi Ha Hb Hab Hnd.
  rewrite NoDup_alt in Hnd.
  assert (E : i - 1 = i); [|lia].
  apply (Hnd (i - 1) i (id_ a)).
  - rewrite list_lookup_fmap, Ha. reflexivity.
  - rewrite list_lookup_fmap, Hb. simpl. congruence.
Qed.

(** After the sort the loop never finds an index below its
    predecessor. *)
Lemma check_never_unsorted v (p q : N) (x y : dist_t) (i : nat) :
  SpaceSparseVector.check (SpaceSparseVector.sort v)
    <> Some (SpaceSparseVector.IdsNotSorted p x q y i).
Proof.
  pose proof (check_sorted _ (sort_sorted v)) as Hc. intros E. rewrite E in Hc.
  destruct Hc as (k & a & b & Hx & _). discriminate.
Qed.

End SortAndCheck.

(** ** Parsing a sparse vector *)

Section SparseParsing.
Context {dist_t : Type} `{NumText dist_t} `{LineHelpers} `{SparseStorage dist_t}.

(** [ReadSparseVec] in one equation: the pairs are those read from the
    line as it came in, sorted, then checked. *)
Lemma ReadSparseVec_unfold (line : string) (line_num : nat) :
  SpaceSparseVector.ReadSparseVec line line_num =
    match SpaceSparseVector.check
            (SpaceSparseVector.sort (SpaceSparseVector.tokenize line)) with
    | Some e =>
        Raise (SpaceSparseVector.parse_failure e line_num
                 (ReplaceSomePunct (snd (extractLabel line))))
    | None =>
        Return (fst (extractLabel line),
                SpaceSparseVector.sort (SpaceSparseVector.tokenize line))
    end.
Proof.
  unfold SpaceSparseVector.ReadSparseVec.
  destruct (extractLabel line) as [label line']. reflexivity.
Qed.

Lemma ReadSparseVec_never_unsorted (line l : string) (line_num n : nat)
    (p q : N) (x y : dist_t) (i : nat) :
  SpaceSparseVector.ReadSparseVec line line_num <>
    Raise (SpaceSparseVector.parse_failure
             (SpaceSparseVector.IdsNotSorted p x q y i) n l).
Proof.
  rewrite ReadSparseVec_unfold.
  pose proof (check_sorted _ (sort_sorted (SpaceSparseVector.tokenize line))) as Hc.
  destruct (SpaceSparseVector.check _) as [e|]; [|discriminate].
  destruct Hc as (k & a & b & -> & _).
  unfold SpaceSparseVector.parse_failure. simpl. intros E.
  injection E as E _. discriminate E.
Qed.

End SparseParsing.




(** When the pairs that are read from the line hold a repeated index,
    parsing fails: two pairs of the line share an index, the error line
    is the text of the exception for a repeated index built from them,
    and the fatal line carries the line number of the input state. *)
Lemma Sparse_CreateObjFromStr_repeated_index_read
    {dist_t : Type} `{NumText dist_t} `{LineHelpers} `{SparseStorage dist_t}
    (id : IdType) (label : LabelType) (s : string) (inpState : DataFileInputState) :
  ~ NoDup (map id_ (SpaceSparseVector.tokenize s)) ->
  exists (i : nat) (prev cur : SparseVectElem dist_t),
    prev ∈ SpaceSparseVector.tokenize s /\ cur ∈ SpaceSparseVector.tokenize s /\
    id_ cur = id_ prev /\
    SpaceSparseVector.CreateObjFromStr id label s (Some inpState) =
      Raise (fatal
        [(LIB_ERROR,
          ("Exception: Repeating ID: prevId = " ++ dec (id_ prev)
           ++ " prev val: " ++ put_default (val_ prev)
           ++ " current id: " ++ dec (id_ cur)
           ++ " val = " ++ put_default (val_ cur)
           ++ " (i=" ++ dec (N.of_nat i) ++ ")")%string);
         (LIB_FATAL,
          ("Failed to parse the line # " ++ dec (N.of_nat (line_num_ inpState))
           ++ ": '" ++ ReplaceSomePunct (snd (extractLabel s)) ++ "'")%string)]).
Proof.
  intros Hdup.
  pose proof (check_sorted _ (sort_sorted (SpaceSparseVector.tokenize s))) as Hc.
  unfold SpaceSparseVector.CreateObjFromStr. rewrite ReadSparseVec_unfold.
  destruct (SpaceSparseVector.check _) as [e|].
  - destruct Hc as (i & a & b & -> & Hab & Hi & Ha & Hb).
    exists i, a, b.
    split; [|split; [|split; [exact Hab|reflexivity]]].
    + rewrite <- (sort_perm (SpaceSparseVector.tokenize s)).
      eapply list_elem_of_lookup_2, Ha.
    + rewrite <- (sort_perm (SpaceSparseVector.tokenize s)).
      eapply list_elem_of_lookup_2, Hb.
  - exfalso. apply Hdup.
    apply (NoDup_Permutation_proper _ _
             (Permutation_map id_ (sort_perm (SpaceSparseVector.tokenize s)))).
    apply id_lt_sorted_NoDup, Hc.
Qed.

(** C4, at the line [label:3 5 1.5 5 2.5], which holds the index 5
    twice.  Whatever the value type, no pair is read from it, because
    the stream holds the line as it came in and the first extraction
    meets the letter [l]: parsing returns an object with the label 3
    and the empty vector, and nothing is reported. *)
Theorem Sparse_CreateObjFromStr_labelled_repeated_index
    {dist_t : Type} `{NumText dist_t} `{SparseStorage dist_t}
    (id : IdType) (label : LabelType) (inpState : DataFileInputState) :
  extractLabel "label:3 5 1.5 5 2.5" = (Some 3%Z, "5 1.5 5 2.5"%string) /\
  SpaceSparseVector.tokenize "label:3 5 1.5 5 2.5" = [] /\
  SpaceSparseVector.CreateObjFromStr id label "label:3 5 1.5 5 2.5" (Some inpState) =
    Return (CreateObjFromVect id (Some 3%Z) []).
Proof. repeat split; reflexivity. Qed.

(** The same pairs without the label are refused, the index 5 being
    reported as repeated. *)
Lemma Sparse_CreateObjFromStr_unlabelled_repeated_index :
  SpaceSparseVector.CreateObjFromStr (dist_t := literal) 7%Z None "5 1.5 5 2.5"
      (Some (mkInputState [] 4)) =
    Raise (fatal
      [(LIB_ERROR,
        "Exception: Repeating ID: prevId = 5 prev val: 1.5 current id: 5 val = 2.5 (i=1)"%string);
       (LIB_FATAL, "Failed to parse the line # 4: '5 1.5 5 2.5'"%string)]).
Proof. reflexivity. Qed.

(** A line that separates index and value by a colon is accepted in the
    same way: the colon is still in the stream, the first value cannot
    be read, and the object is built from the empty vector. *)
Lemma Sparse_CreateObjFromStr_colon_repeated_index :
  ReplaceSomePunct (snd (extractLabel "5:1.5 5:2.5")) = "5 1.5 5 2.5"%string /\
  SpaceSparseVector.CreateObjFromStr (dist_t := literal) 7%Z None "5:1.5 5:2.5"
      (Some (mkInputState [] 4)) =
    Return (CreateObjFromVect 7%Z None []).
Proof. split; reflexivity. Qed.

(** What the failure reads at the line [10 1.5 5 2.0 10 7], the fourth
    of its file. *)
Lemma Sparse_CreateObjFromStr_repeated_index_text :
  SpaceSparseVector.CreateObjFromStr (dist_t := literal) 7%Z None "10 1.5 5 2.0 10 7"
      (Some (mkInputState [] 4)) =
    Raise (fatal
      [(LIB_ERROR,
        "Exception: Repeating ID: prevId = 10 prev val: 1.5 current id: 10 val = 7 (i=2)"%string);
       (LIB_FATAL, "Failed to parse the line # 4: '10 1.5 5 2.0 10 7'"%string)]).
Proof. reflexivity. Qed.

(** A line that starts with the label prefix yields no pair at all,
    whatever the value type: the first extraction of an index meets the
    letter [l]. *)
Lemma tokenize_label_prefix {dist_t : Type} `{NumText dist_t} (rest : string) :
  SpaceSparseVector.tokenize (LABEL_PREFIX ++ rest)%string = [].
Proof. reflexivity. Qed.

(** C5, at the line of the specification's example: the label is 3, and
    the object is built from the empty vector, because the pairs are
    read from the line as it came in, label included. *)
Theorem Sparse_CreateObjFromStr_labelled_line
    {dist_t : Type} `{NumText dist_t} `{SparseStorage dist_t}
    (id : IdType) (label : LabelType) (inpState : DataFileInputState) :
  extractLabel "label:3 10 1.5 5 2.0" = (Some 3%Z, "10 1.5 5 2.0"%string) /\
  SpaceSparseVector.tokenize "label:3 10 1.5 5 2.0" = [] /\
  SpaceSparseVector.ReadSparseVec "label:3 10 1.5 5 2.0" (line_num_ inpState) =
    Return (Some 3%Z, []) /\
  SpaceSparseVector.CreateObjFromStr id label "label:3 10 1.5 5 2.0" (Some inpState) =
    Return (CreateObjFromVect id (Some 3%Z) []).
Proof. repeat split; reflexivity. Qed.

(** Without the label the same pairs are read and sorted. *)
Lemma Sparse_ReadSparseVec_unlabelled_line :
  SpaceSparseVector.ReadSparseVec (dist_t := literal) "10 1.5 5 2.0" 1 =
    Return (EMPTY_LABEL, [ElemType 5%N "2.0"%string; ElemType 10%N "1.5"%string]).
Proof. reflexivity. Qed.

(** ** Writing an index and reading it back *)

Lemma digits_value_pos (d : Decimal.uint) (p : positive) :
  digits_value d (Npos p) = Npos (Pos.of_uint_acc d p).
Proof.
  revert p. induction d; intros p; simpl; [reflexivity|..];
    rewrite <- IHd; f_equal; lia.
Qed.

Lemma digits_value_0 (d : Decimal.uint) : digits_value d 0 = N.of_uint d.
Proof.
  unfold N.of_uint.
  induction d; simpl; [reflexivity|exact IHd|..]; apply digits_value_pos.
Qed.

Lemma digits_value_to_uint (n : N) : digits_value (N.to_uint n) 0 = n.
Proof. rewrite digits_value_0. apply DecimalN.Unsigned.of_to. Qed.

Lemma get_digits_stop (t : string) (acc : N) :
  starts_with_digit t = false -> get_digits t acc = (acc, t).
Proof.
  destruct t as [|c t]; simpl; [reflexivity|].
  destruct (digit_of c); [|reflexivity].
  intros E. apply bool_decide_eq_false in E. destruct E. eauto.
Qed.

Lemma get_digits_uint (d : Decimal.uint) (acc : N) (t : string) :
  starts_with_digit t = false ->
  get_digits (NilEmpty.string_of_uint d ++ t)%string acc = (digits_value d acc, t).
Proof.
  intros Ht. revert acc.
  induction d; intros acc; simpl; [apply get_digits_stop, Ht|..]; apply IHd.
Qed.

Lemma string_length_append (a b : string) :
  String.length (a ++ b)%string = String.length a + String.length b.
Proof. induction a as [|c a IH]; simpl; [reflexivity|]. rewrite IH. reflexivity. Qed.

Lemma dec_nonempty (n : N) : 1 <= String.length (dec n).
Proof.
  unfold dec. destruct n as [|p]; simpl; [lia|].
  pose proof (DecimalPos.Unsigned.to_uint_nonnil p) as Hn.
  destruct (Pos.to_uint p); simpl; try lia. contradiction.
Qed.

(** An index that was written is read back, up to the character that
    follows it, also after a blank. *)
Lemma extract_id_dec (n : N) (t : string) :
  (n <= UINT32_MAX)%N -> starts_with_digit t = false ->
  extract_id (dec n ++ t)%string = Some (n, t) /\
  extract_id (String " " (dec n ++ t))%string = Some (n, t).
Proof.
  intros Hn Ht.
  assert (E : extract_id (dec n ++ t)%string = Some (n, t)).
  { unfold dec. pose proof (digits_value_to_uint n) as Hv.
    assert (Hnil : N.to_uint n <> Decimal.Nil).
    { destruct n; simpl; [discriminate|apply DecimalPos.Unsigned.to_uint_nonnil]. }
    destruct (N.to_uint n) as [|d|d|d|d|d|d|d|d|d|d]; [contradiction|..];
      unfold extract_id, num_get_uint32; simpl;
      rewrite (get_digits_uint d _ t Ht);
      match type of Hv with
      | ?L = _ =>
          match goal with
          | |- context [digits_value d ?X] => change (digits_value d X) with L
          end
      end;
      rewrite Hv; apply N.leb_le in Hn; rewrite Hn; reflexivity. }
  split; [exact E|]. unfold extract_id in *. simpl. exact E.
Qed.

(** ** Writing a sparse vector and reading it back *)

Section RoundTrip.
Context {dist_t : Type} `{NumText dist_t}.

Lemma put_elems_delimited (v : list (SparseVectElem dist_t)) :
  delimited (SpaceSparseVector.put_elems true v).
Proof. destruct v; simpl; [left; reflexivity|right; eauto]. Qed.

Lemma put_elems_length (i : bool) (v : list (SparseVectElem dist_t)) :
  length v <= String.length (SpaceSparseVector.put_elems i v).
Proof.
  revert i. induction v as [|e v IH]; intros i; simpl; [lia|].
  rewrite !string_length_append. cbn [String.length].
  rewrite string_length_append. pose proof (dec_nonempty (id_ e)).
  specialize (IH true). lia.
Qed.

Lemma read_pairs_put_elems (v : list (SparseVectElem dist_t)) (i : bool) (fuel : nat) :
  Forall (fun e => (id_ e <= UINT32_MAX)%N) v ->
  Forall (fun e => reads_back (val_ e)) v ->
  length v <= fuel ->
  SpaceSparseVector.read_pairs fuel (SpaceSparseVector.put_elems i v) = v.
Proof.
  revert i fuel. induction v as [|e v IH]; intros i fuel Hid Hval Hfuel.
  - destruct fuel; reflexivity.
  - destruct fuel as [|fuel]; [simpl in Hfuel; lia|].
    inversion Hid as [|? ? He Hid']; subst. inversion Hval as [|? ? Hv Hval']; subst.
    cbn [SpaceSparseVector.put_elems SpaceSparseVector.read_pairs].
    set (R := SpaceSparseVector.put_elems true v).
    set (T := (" " ++ put_max_digits10 (val_ e) ++ R)%string).
    assert (Ei : extract_id ((if i then " " else "") ++ dec (id_ e) ++ T)%string
                 = Some (id_ e, T)).
    { destruct (extract_id_dec (id_ e) T He eq_refl) as [E0 E1].
      destruct i; [exact E1|exact E0]. }
    rewrite Ei. unfold T. change (" " ++ ?x)%string with (String " " x).
    rewrite (Hv R (put_elems_delimited v)).
    destruct e as [id val]. simpl. f_equal.
    apply IH; [assumption|assumption|simpl in Hfuel; lia].
Qed.

Lemma tokenize_put_elems (v : list (SparseVectElem dist_t)) :
  Forall (fun e => (id_ e <= UINT32_MAX)%N) v ->
  Forall (fun e => reads_back (val_ e)) v ->
  SpaceSparseVector.tokenize (SpaceSparseVector.put_elems false v) = v.
Proof.
  intros Hid Hval. unfold SpaceSparseVector.tokenize.
  apply read_pairs_put_elems; [assumption|assumption|apply put_elems_length].
Qed.

Lemma check_of_strictly_sorted (v : list (SparseVectElem dist_t)) :
  Sorted id_lt v -> SpaceSparseVector.check v = None.
Proof.
  intros Hs. pose proof (check_sorted v (id_lt_sorted_le v Hs)) as Hc.
  destruct (SpaceSparseVector.check v) as [e|]; [|reflexivity].
  destruct Hc as (i & a & b & _ & Hab & Hi & Ha & Hb).
  destruct (neighbours_not_NoDup v i a b Hi Ha Hb Hab).
  apply id_lt_sorted_NoDup, Hs.
Qed.

End RoundTrip.

(** C6.  Take an object whose vector is valid, whose values are read
    back from what is written for them, and whose vector is what the
    storage gives back after packing it.  Parsing the text that
    [CreateStrFromObj] writes for it succeeds, and the object parsed is
    [ApproxEqual] to the original: the two decode to the same sequence
    of pairs. *)
Theorem Sparse_write_then_parse
    {dist_t : Type} `{NumText dist_t} `{LineHelpers} `{SparseStorage dist_t}
    (o : Object) (id : IdType) (label : LabelType) (externId : string)
    (inpState : DataFileInputState) :
  valid_sparse (CreateVectFromObj o) ->
  Forall (fun e => reads_back (val_ e)) (CreateVectFromObj o) ->
  (forall l, CreateVectFromObj (CreateObjFromVect id l (CreateVectFromObj o))
             = CreateVectFromObj o) ->
  exists o' : Object,
    SpaceSparseVector.CreateObjFromStr id label
      (SpaceSparseVector.CreateStrFromObj o externId) (Some inpState) = Return o' /\
    SpaceSparseVector.ApproxEqual o' o = true /\
    CreateVectFromObj o' = CreateVectFromObj o.
Proof.
  intros [Hsorted Hid] Hval Hstore.
  unfold SpaceSparseVector.CreateObjFromStr, SpaceSparseVector.CreateStrFromObj.
  rewrite ReadSparseVec_unfold.
  rewrite (tokenize_put_elems _ Hid Hval).
  rewrite (sort_of_sorted _ (id_lt_sorted_le _ Hsorted)).
  rewrite (check_of_strictly_sorted _ Hsorted).
  eexists. split; [reflexivity|].
  unfold SpaceSparseVector.ApproxEqual. rewrite Hstore.
  split; [apply bool_decide_eq_true; reflexivity|reflexivity].
Qed.

Lemma Sparse_write_then_parse_witness :
  exists o' : Object,
    SpaceSparseVector.CreateObjFromStr (dist_t := literal) 8%Z None
      (SpaceSparseVector.CreateStrFromObj
         (CreateObjFromVect 7%Z None
            [ElemType 5%N "2.0"%string; ElemType 10%N "1.5"%string]) "")
      (Some (mkInputState [] 1)) = Return o' /\
    SpaceSparseVector.ApproxEqual o'
      (CreateObjFromVect 7%Z None
         [ElemType 5%N "2.0"%string; ElemType 10%N "1.5"%string]) = true /\
    CreateVectFromObj o' =
      CreateVectFromObj
        (CreateObjFromVect 7%Z None
           [ElemType 5%N "2.0"%string; ElemType 10%N "1.5"%string]).
Proof.
  apply (Sparse_write_then_parse (dist_t := literal)
           (CreateObjFromVect 7%Z None
              [ElemType 5%N "2.0"%string; ElemType 10%N "1.5"%string])
           8%Z None "" (mkInputState [] 1)).
  - split.
    + change (Sorted (id_lt (dist_t := literal))
                [ElemType 5%N "2.0"%string; ElemType 10%N "1.5"%string]).
      repeat constructor.
    + change (Forall (fun e : SparseVectElem literal => (id_ e <= UINT32_MAX)%N)
                [ElemType 5%N "2.0"%string; ElemType 10%N "1.5"%string]).
      repeat constructor; discriminate.
  - change (Forall (fun e : SparseVectElem literal => reads_back (val_ e))
              [ElemType 5%N "2.0"%string; ElemType 10%N "1.5"%string]).
    repeat constructor; intros rest [-> | [r ->]]; reflexivity.
  - intros l. reflexivity.
Defined.

(** The text written for the object of the witness. *)
Lemma Sparse_CreateStrFromObj_text :
  SpaceSparseVector.CreateStrFromObj (dist_t := literal)
    (CreateObjFromVect 7%Z None
       [ElemType 5%N "2.0"%string; ElemType 10%N "1.5"%string]) ""
  = "5 2.0 10 1.5"%string.
Proof. reflexivity. Qed.

(* ================================================================== *)
(** * Part III: further properties of the code                         *)
(* ================================================================== *)

(** ** The outcomes of [ReadSparseVec] *)


(** ** The order of the pairs on a line *)

Lemma strictly_sorted_perm_eq {dist_t : Type} (l1 l2 : list (SparseVectElem dist_t)) :
  Sorted id_lt l1 -> Sorted id_lt l2 -> Permutation l1 l2 -> l1 = l2.
Proof.
  intros H1 H2.
  apply Sorted_StronglySorted in H1; [|intros a b c; unfold id_lt; lia].
  apply Sorted_StronglySorted in H2; [|intros a b c; unfold id_lt; lia].
  revert l2 H2. induction H1 as [|a l1 H1 IH Ha]; intros l2 H2 Hp.
  - apply Permutation_nil in Hp. congruence.
  - destruct l2 as [|b l2]; [apply Permutation_sym, Permutation_nil in Hp; discriminate|].
    inversion H2 as [|? ? H2' Hb]; subst.
    assert (E : a = b).
    { assert (Ha2 : In a (b :: l2)) by (eapply Permutation_in; [exact Hp|left; reflexivity]).
      assert (Hb1 : In b (a :: l1))
        by (eapply Permutation_in; [apply Permutation_sym, Hp|left; reflexivity]).
      destruct Ha2 as [E|Ha2]; [congruence|].
      destruct Hb1 as [E|Hb1]; [exact E|].
      rewrite Forall_forall in Ha, Hb.
      apply list_elem_of_In in Ha2, Hb1.
      specialize (Ha b Hb1). specialize (Hb a Ha2). unfold id_lt in *. lia. }
    subst b. f_equal. apply IH; [exact H2'|].
    eapply Permutation_cons_inv, Hp.
Qed.

(** X2.  The order in which a line lists its pairs does not matter: two
    lines whose pairs are rearrangements of each other, with no index
    repeated, parse to the same vector. *)
Theorem Sparse_ReadSparseVec_order_insensitive
    {dist_t : Type} `{NumText dist_t} `{LineHelpers}
    (line1 line2 : string) (n1 n2 : nat) :
  NoDup (map id_ (SpaceSparseVector.tokenize line1)) ->
  Permutation (SpaceSparseVector.tokenize line1) (SpaceSparseVector.tokenize line2) ->
  exists v : list (SparseVectElem dist_t),
    SpaceSparseVector.ReadSparseVec line1 n1 = Return (fst (extractLabel line1), v) /\
    SpaceSparseVector.ReadSparseVec line2 n2 = Return (fst (extractLabel line2), v).
Proof.
  intros Hnd Hp.
  assert (Hnd2 : NoDup (map id_ (SpaceSparseVector.tokenize line2)))
    by (apply (NoDup_Permutation_proper _ _ (Permutation_map id_ Hp)); exact Hnd).
  assert (Hok : forall line : string,
             NoDup (map id_ (SpaceSparseVector.tokenize line)) ->
             SpaceSparseVector.check
               (SpaceSparseVector.sort (SpaceSparseVector.tokenize line)) = None /\
             Sorted id_lt (SpaceSparseVector.sort (SpaceSparseVector.tokenize line))).
  { intros line Hl.
    pose proof (check_sorted _ (sort_sorted (SpaceSparseVector.tokenize line))) as Hc.
    destruct (SpaceSparseVector.check _) as [e|]; [|auto].
    destruct Hc as (i & a & b & _ & Hab & Hi & Ha & Hb).
    destruct (neighbours_not_NoDup _ i a b Hi Ha Hb Hab).
    apply (NoDup_Permutation_proper _ _
             (Permutation_map id_ (sort_perm (SpaceSparseVector.tokenize line)))).
    exact Hl. }
  destruct (Hok line1 Hnd) as [C1 S1]. destruct (Hok line2 Hnd2) as [C2 S2].
  exists (SpaceSparseVector.sort (SpaceSparseVector.tokenize line1)).
  rewrite !ReadSparseVec_unfold, C1, C2. split; [reflexivity|].
  f_equal. f_equal. symmetry. apply strictly_sorted_perm_eq; [exact S1|exact S2|].
  rewrite !sort_perm. exact Hp.
Qed.

Lemma Sparse_ReadSparseVec_order_insensitive_witness :
  exists v : list (SparseVectElem literal),
    SpaceSparseVector.ReadSparseVec "10 1.5 5 2.0" 1
      = Return (fst (extractLabel "10 1.5 5 2.0"), v) /\
    SpaceSparseVector.ReadSparseVec "5 2.0 10 1.5" 2
      = Return (fst (extractLabel "5 2.0 10 1.5"), v).
Proof.
  assert (Hnd : NoDup (map id_ (SpaceSparseVector.tokenize (dist_t := literal)
                                   "10 1.5 5 2.0")))
    by (apply (bool_decide_unpack _); vm_compute; exact I).
  assert (Hp : Permutation (SpaceSparseVector.tokenize (dist_t := literal) "10 1.5 5 2.0")
                           (SpaceSparseVector.tokenize (dist_t := literal) "5 2.0 10 1.5"))
    by (apply perm_swap).
  exact (Sparse_ReadSparseVec_order_insensitive (dist_t := literal)
           "10 1.5 5 2.0" "5 2.0 10 1.5" 1 2 Hnd Hp).
Defined.

(** ** The reading loop *)

Lemma read_pairs_length {dist_t : Type} `{NumText dist_t} (fuel : nat) (str : string) :
  length (SpaceSparseVector.read_pairs fuel str) <= String.length str.
Proof.
  revert str. induction fuel as [|fuel IH]; intros str; simpl; [lia|].
  destruct (extract_id str) as [[id s1]|] eqn:Ei; simpl; [|lia].
  destruct (extract_val s1) as [[val s2]|] eqn:Ev; simpl; [|lia].
  apply extract_id_shorter in Ei. apply extract_val_length in Ev.
  specialize (IH s2). lia.
Qed.

(** X3.  The loop [while (str >> id && str >> val)] ends: every round
    consumes at least one character of the line, so it reads at most as
    many pairs as the line has characters, and letting it run for more
    rounds than that reads nothing more. *)
Theorem Sparse_read_loop_bound {dist_t : Type} `{NumText dist_t} (str : string) :
  length (SpaceSparseVector.tokenize str) <= String.length str /\
  forall rounds : nat,
    String.length str <= rounds ->
    SpaceSparseVector.read_pairs rounds str = SpaceSparseVector.tokenize str.
Proof.
  split; [apply read_pairs_length|].
  intros rounds Hr. unfold SpaceSparseVector.tokenize.
  apply read_pairs_fuel_irrelevant; [exact Hr|lia].
Qed.

Lemma Sparse_read_loop_bound_witness :
  length (SpaceSparseVector.tokenize (dist_t := literal) "10 1.5 5 2.0") <= 12 /\
  SpaceSparseVector.read_pairs (dist_t := literal) 100 "10 1.5 5 2.0"
    = SpaceSparseVector.tokenize "10 1.5 5 2.0".
Proof.
  destruct (Sparse_read_loop_bound (dist_t := literal) "10 1.5 5 2.0") as [Hl Hf].
  split; [exact Hl|]. apply Hf. simpl. lia.
Defined.

(** X4.  Whitespace in front of a line changes nothing of what is read
    from it. *)
Theorem Sparse_tokenize_leading_whitespace {dist_t : Type} `{NumText dist_t}
    (c : ascii) (line : string) :
  isspace c = true ->
  SpaceSparseVector.tokenize (String c line) = SpaceSparseVector.tokenize line.
Proof.
  intros Hc. unfold SpaceSparseVector.tokenize at 1.
  assert (Ei : extract_id (String c line) = extract_id line)
    by (unfold extract_id; simpl; rewrite Hc; reflexivity).
  cbn [String.length SpaceSparseVector.read_pairs]. rewrite Ei.
  destruct (extract_id line) as [[id s1]|] eqn:E.
  - rewrite <- (read_pairs_fuel (S (String.length line)) line) by lia.
    cbn [SpaceSparseVector.read_pairs]. rewrite E. reflexivity.
  - destruct line; unfold SpaceSparseVector.tokenize; simpl; [reflexivity|].
    rewrite E. reflexivity.
Qed.

Lemma Sparse_tokenize_leading_whitespace_witness :
  SpaceSparseVector.tokenize (dist_t := literal) " 10 1.5 5 2.0"
    = SpaceSparseVector.tokenize "10 1.5 5 2.0".
Proof.
  apply (Sparse_tokenize_leading_whitespace (dist_t := literal) " "%char "10 1.5 5 2.0").
  reflexivity.
Defined.

(** ** Where the reading stops *)

Lemma string_app_assoc (a b c : string) :
  ((a ++ b) ++ c)%string = (a ++ b ++ c)%string.
Proof. induction a as [|x a IH]; simpl; [reflexivity|]. rewrite IH. reflexivity. Qed.

Lemma string_app_nil (a : string) : (a ++ "")%string = a.
Proof. induction a as [|x a IH]; simpl; [reflexivity|]. rewrite IH. reflexivity. Qed.

(** Reading an index that was written, whatever its size: it is read
    when it fits [uint32_t], and the extraction fails when it does not. *)
Lemma extract_id_dec_any (n : N) (t : string) :
  starts_with_digit t = false ->
  extract_id (String " " (dec n ++ t))%string
    = if (n <=? UINT32_MAX)%N then Some (n, t) else None.
Proof.
  intros Ht.
  assert (E : extract_id (dec n ++ t)%string
              = if (n <=? UINT32_MAX)%N then Some (n, t) else None).
  { unfold dec. pose proof (digits_value_to_uint n) as Hv.
    assert (Hnil : N.to_uint n <> Decimal.Nil).
    { destruct n; simpl; [discriminate|apply DecimalPos.Unsigned.to_uint_nonnil]. }
    destruct (N.to_uint n) as [|d|d|d|d|d|d|d|d|d|d]; [contradiction|..];
      unfold extract_id, num_get_uint32; simpl;
      rewrite (get_digits_uint d _ t Ht);
      match type of Hv with
      | ?L = _ =>
          match goal with
          | |- context [digits_value d ?X] => change (digits_value d X) with L
          end
      end;
      rewrite Hv; reflexivity. }
  unfold extract_id in *. simpl. exact E.
Qed.

Section Tail.
Context {dist_t : Type} `{NumText dist_t}.

(** The text written for a vector, followed by a tail from which no
    pair can be read: the pairs read are those of the vector. *)
Lemma read_pairs_put_elems_tail (v : list (SparseVectElem dist_t)) (i : bool)
    (fuel : nat) (t : string) :
  Forall (fun e => (id_ e <= UINT32_MAX)%N) v ->
  Forall (fun e => reads_back (val_ e)) v ->
  delimited t ->
  (forall f, SpaceSparseVector.read_pairs f t = []) ->
  length v <= fuel ->
  SpaceSparseVector.read_pairs fuel (SpaceSparseVector.put_elems i v ++ t)%string = v.
Proof.
  intros Hid Hval Ht Hnone. revert i fuel.
  induction v as [|e v IH]; intros i fuel Hfuel.
  - simpl. apply Hnone.
  - inversion Hid as [|? ? He Hid']; subst. inversion Hval as [|? ? Hv Hval']; subst.
    destruct fuel as [|fuel]; [simpl in Hfuel; lia|].
    cbn [SpaceSparseVector.put_elems].
    rewrite !string_app_assoc.
    set (R := (SpaceSparseVector.put_elems true v ++ t)%string).
    set (T := (" " ++ put_max_digits10 (val_ e) ++ R)%string).
    cbn [SpaceSparseVector.read_pairs].
    assert (Ei : extract_id ((if i then " " else "") ++ dec (id_ e) ++ T)%string
                 = Some (id_ e, T)).
    { destruct (extract_id_dec (id_ e) T He eq_refl) as [E0 E1].
      destruct i; [exact E1|exact E0]. }
    rewrite Ei. unfold T. change (" " ++ ?x)%string with (String " " x).
    assert (HR : delimited R).
    { unfold R. destruct v; simpl; [exact Ht|right; eauto]. }
    rewrite (Hv R HR). destruct e as [id val]. simpl. f_equal.
    apply IH; [assumption|assumption|simpl in Hfuel; lia].
Qed.

(** No pair is read from a lone index, whatever its size. *)
Lemma read_pairs_lone_index (n : N) (f : nat) :
  SpaceSparseVector.read_pairs f (String " " (dec n)) = [].
Proof.
  destruct f as [|f]; [reflexivity|]. cbn [SpaceSparseVector.read_pairs].
  rewrite <- (string_app_nil (dec n)).
  rewrite (extract_id_dec_any n "" eq_refl).
  destruct (n <=? UINT32_MAX)%N; reflexivity.
Qed.

(** No pair is read from a text that starts with an index too large for
    [uint32_t]. *)
Lemma read_pairs_large_index (n : N) (rest : string) (f : nat) :
  (UINT32_MAX < n)%N ->
  SpaceSparseVector.read_pairs f (String " " (dec n ++ String " " rest)) = [].
Proof.
  intros Hn. destruct f as [|f]; [reflexivity|]. cbn [SpaceSparseVector.read_pairs].
  rewrite (extract_id_dec_any n (String " " rest) eq_refl).
  apply N.leb_gt in Hn. rewrite Hn. reflexivity.
Qed.

End Tail.

(** X5.  An index with no value after it at the end of a line is dropped
    without any error: the line written for a valid vector, followed by
    a blank and one more index, parses to that vector. *)
Theorem Sparse_CreateObjFromStr_lone_index_dropped
    {dist_t : Type} `{NumText dist_t} `{LineHelpers} `{SparseStorage dist_t}
    (o : Object) (id : IdType) (label : LabelType) (externId : string)
    (inpState : DataFileInputState) (n : N) :
  valid_sparse (CreateVectFromObj o) ->
  Forall (fun e => reads_back (val_ e)) (CreateVectFromObj o) ->
  SpaceSparseVector.CreateObjFromStr id label
    (SpaceSparseVector.CreateStrFromObj o externId ++ String " " (dec n))%string
    (Some inpState)
  = Return (CreateObjFromVect id
              (fst (extractLabel
                      (SpaceSparseVector.CreateStrFromObj o externId
                       ++ String " " (dec n))%string))
              (CreateVectFromObj o)).
Proof.
  intros [Hsorted Hid] Hval.
  unfold SpaceSparseVector.CreateObjFromStr. rewrite ReadSparseVec_unfold.
  unfold SpaceSparseVector.tokenize, SpaceSparseVector.CreateStrFromObj.
  rewrite (read_pairs_put_elems_tail _ false _ (String " " (dec n)) Hid Hval);
    [|right; eauto|intros f; apply read_pairs_lone_index
     |rewrite string_length_append;
      pose proof (put_elems_length false (CreateVectFromObj o)); lia].
  rewrite (sort_of_sorted _ (id_lt_sorted_le _ Hsorted)).
  rewrite (check_of_strictly_sorted _ Hsorted). reflexivity.
Qed.

Lemma Sparse_CreateObjFromStr_lone_index_dropped_witness :
  SpaceSparseVector.CreateObjFromStr (dist_t := literal) 8%Z None
    (SpaceSparseVector.CreateStrFromObj
       (CreateObjFromVect 7%Z None
          [ElemType 5%N "2.0"%string; ElemType 10%N "1.5"%string]) ""
     ++ String " " (dec 10))%string
    (Some (mkInputState [] 1))
  = Return (CreateObjFromVect 8%Z None
              [ElemType 5%N "2.0"%string; ElemType 10%N "1.5"%string]).
Proof.
  assert (Hvalid : valid_sparse (CreateVectFromObj
             (CreateObjFromVect 7%Z None
                [ElemType 5%N "2.0"%string; ElemType 10%N "1.5"%string]))).
  { split.
    - change (Sorted (id_lt (dist_t := literal))
                [ElemType 5%N "2.0"%string; ElemType 10%N "1.5"%string]).
      repeat constructor.
    - change (Forall (fun e : SparseVectElem literal => (id_ e <= UINT32_MAX)%N)
                [ElemType 5%N "2.0"%string; ElemType 10%N "1.5"%string]).
      repeat constructor; discriminate. }
  assert (Hback : Forall (fun e : SparseVectElem literal => reads_back (val_ e))
            (CreateVectFromObj
               (CreateObjFromVect 7%Z None
                  [ElemType 5%N "2.0"%string; ElemType 10%N "1.5"%string]))).
  { change (Forall (fun e : SparseVectElem literal => reads_back (val_ e))
              [ElemType 5%N "2.0"%string; ElemType 10%N "1.5"%string]).
    repeat constructor; intros rest [-> | [r ->]]; reflexivity. }
  exact (Sparse_CreateObjFromStr_lone_index_dropped (dist_t := literal)
           (CreateObjFromVect 7%Z None
              [ElemType 5%N "2.0"%string; ElemType 10%N "1.5"%string])
           8%Z None "" (mkInputState [] 1) 10%N Hvalid Hback).
Defined.

(** X6.  An index that does not fit [uint32_t] is no error either: the
    reading stops in front of it.  The line written for a valid vector,
    followed by such an index and anything after it, parses to that
    vector, and what follows the index is never looked at. *)
Theorem Sparse_CreateObjFromStr_large_index_stops
    {dist_t : Type} `{NumText dist_t} `{LineHelpers} `{SparseStorage dist_t}
    (o : Object) (id : IdType) (label : LabelType) (externId : string)
    (inpState : DataFileInputState) (n : N) (rest : string) :
  valid_sparse (CreateVectFromObj o) ->
  Forall (fun e => reads_back (val_ e)) (CreateVectFromObj o) ->
  (UINT32_MAX < n)%N ->
  SpaceSparseVector.CreateObjFromStr id label
    (SpaceSparseVector.CreateStrFromObj o externId
     ++ String " " (dec n ++ String " " rest))%string
    (Some inpState)
  = Return (CreateObjFromVect id
              (fst (extractLabel
                      (SpaceSparseVector.CreateStrFromObj o externId
                       ++ String " " (dec n ++ String " " rest))%string))
              (CreateVectFromObj o)).
Proof.
  intros [Hsorted Hid] Hval Hn.
  unfold SpaceSparseVector.CreateObjFromStr. rewrite ReadSparseVec_unfold.
  unfold SpaceSparseVector.tokenize, SpaceSparseVector.CreateStrFromObj.
  rewrite (read_pairs_put_elems_tail _ false _
             (String " " (dec n ++ String " " rest)) Hid Hval);
    [|right; eauto|intros f; apply read_pairs_large_index, Hn
     |rewrite string_length_append;
      pose proof (put_elems_length false (CreateVectFromObj o)); lia].
  rewrite (sort_of_sorted _ (id_lt_sorted_le _ Hsorted)).
  rewrite (check_of_strictly_sorted _ Hsorted). reflexivity.
Qed.

Lemma Sparse_CreateObjFromStr_large_index_stops_witness :
  SpaceSparseVector.CreateObjFromStr (dist_t := literal) 8%Z None
    (SpaceSparseVector.CreateStrFromObj
       (CreateObjFromVect 7%Z None
          [ElemType 5%N "2.0"%string; ElemType 10%N "1.5"%string]) ""
     ++ String " " (dec 4294967296 ++ String " " "1 5 3"))%string
    (Some (mkInputState [] 1))
  = Return (CreateObjFromVect 8%Z None
              [ElemType 5%N "2.0"%string; ElemType 10%N "1.5"%string]).
Proof.
  assert (Hvalid : valid_sparse (CreateVectFromObj
             (CreateObjFromVect 7%Z None
                [ElemType 5%N "2.0"%string; ElemType 10%N "1.5"%string]))).
  { split.
    - change (Sorted (id_lt (dist_t := literal))
                [ElemType 5%N "2.0"%string; ElemType 10%N "1.5"%string]).
      repeat constructor.
    - change (Forall (fun e : SparseVectElem literal => (id_ e <= UINT32_MAX)%N)
                [ElemType 5%N "2.0"%string; ElemType 10%N "1.5"%string]).
      repeat constructor; discriminate. }
  assert (Hback : Forall (fun e : SparseVectElem literal => reads_back (val_ e))
            (CreateVectFromObj
               (CreateObjFromVect 7%Z None
                  [ElemType 5%N "2.0"%string; ElemType 10%N "1.5"%string]))).
  { change (Forall (fun e : SparseVectElem literal => reads_back (val_ e))
              [ElemType 5%N "2.0"%string; ElemType 10%N "1.5"%string]).
    repeat constructor; intros rest [-> | [r ->]]; reflexivity. }
  exact (Sparse_CreateObjFromStr_large_index_stops (dist_t := literal)
           (CreateObjFromVect 7%Z None
              [ElemType 5%N "2.0"%string; ElemType 10%N "1.5"%string])
           8%Z None "" (mkInputState [] 1) 4294967296%N "1 5 3" Hvalid Hback eq_refl).
Defined.

(** ** Writing a word-embedding record and reading it back *)

Lemma first_space_after_token (token rest : string) (c : ascii) :
  HasWhiteSpace token = false -> isspace c = true ->
  WordEmbedSpace.first_space 0 (token ++ String c rest)%string
    = Some (String.length token) /\
  substr_to (String.length token) (token ++ String c rest)%string = token /\
  substr_from (String.length token + 1) (token ++ String c rest)%string = rest.
Proof.
  intros Ht Hc. induction token as [|x token IH]; simpl.
  - rewrite Hc. auto.
  - simpl in Ht. apply orb_false_iff in Ht. destruct Ht as [Hx Ht].
    destruct (IH Ht) as (E1 & E2 & E3).
    rewrite Hx, first_space_shift, E1, E2, E3. auto.
Qed.

(** X7.  What [CreateStrFromObj] writes for an identifier that is not
    empty and holds no whitespace, [ReadNextObjStr] reads back: the
    identifier returned is the one written and the record returned is
    the dense payload text. *)
Theorem WordEmbed_write_then_read `{DenseText}
    (pObj : Object) (externId line : string)
    (inpState : DataFileInputState) (rest : list string) :
  HasWhiteSpace externId = false -> externId <> ""%string ->
  WordEmbedSpace.CreateStrFromObj pObj externId = Return line ->
  inp_file_ inpState = line :: rest ->
  WordEmbedSpace.ReadNextObjStr inpState =
    (mkInputState rest (S (line_num_ inpState)),
     Return (Some (VectorSpace_CreateStrFromObj pObj "", externId))).
Proof.
  intros Hw Hne Hline Hfile.
  unfold WordEmbedSpace.CreateStrFromObj in Hline. rewrite Hw in Hline.
  destruct (String.eqb externId "") eqn:E; [apply eqb_empty in E; contradiction|].
  simpl in Hline. injection Hline as <-.
  unfold WordEmbedSpace.ReadNextObjStr. rewrite Hfile.
  destruct (first_space_after_token externId (VectorSpace_CreateStrFromObj pObj "")
              " "%char Hw eq_refl) as (E1 & E2 & E3).
  change (" " ++ ?x)%string with (String " " x).
  rewrite E1, E2, E3. reflexivity.
Qed.

Lemma WordEmbed_write_then_read_witness :
  WordEmbedSpace.ReadNextObjStr (mkInputState ["cat 1 2"%string; "dog 3 4"%string] 0) =
    (mkInputState ["dog 3 4"%string] 1, Return (Some ("1 2"%string, "cat"%string))).
Proof.
  assert (Hne : "cat"%string <> ""%string) by discriminate.
  assert (Hline : WordEmbedSpace.CreateStrFromObj
                    (mkObject 1%Z None [Byte.x01; Byte.x02]) "cat"
                  = Return "cat 1 2"%string) by reflexivity.
  exact (WordEmbed_write_then_read (mkObject 1%Z None [Byte.x01; Byte.x02])
           "cat" "cat 1 2" (mkInputState ["cat 1 2"%string; "dog 3 4"%string] 0)
           ["dog 3 4"%string] eq_refl Hne Hline eq_refl).
Defined.

Lemma split_suffix_shorter (a b : string) (c : ascii) :
  String.length b < String.length (a ++ String c b)%string.
Proof. rewrite string_length_append. simpl. lia. Qed.

(** X8.  With the empty identifier the record does not read back.  The
    line written is the dense payload text alone.  When that text holds
    no whitespace, [ReadNextObjStr] throws.  When it holds whitespace,
    [ReadNextObjStr] cuts it at its first whitespace character: the
    identifier returned is the first token of the payload (it holds no
    whitespace and the character after it is whitespace), and the
    record returned is what follows that character, which is shorter
    than the payload that was written.  In both cases the line is
    consumed and counted. *)
Theorem WordEmbed_empty_identifier_read_back `{DenseText}
    (pObj : Object) (inpState : DataFileInputState) (line : string)
    (rest : list string) :
  WordEmbedSpace.CreateStrFromObj pObj "" = Return line ->
  inp_file_ inpState = line :: rest ->
  line = VectorSpace_CreateStrFromObj pObj "" /\
  fst (WordEmbedSpace.ReadNextObjStr inpState)
    = mkInputState rest (S (line_num_ inpState)) /\
  ((HasWhiteSpace line = false /\
    snd (WordEmbedSpace.ReadNextObjStr inpState)
      = Raise (runtime_error ("No white space in line #"
                              ++ dec (N.of_nat (S (line_num_ inpState)))
                              ++ " line: 'strObj'")%string)) \/
   (HasWhiteSpace line = true /\
    exists (externId strObj : string) (c : ascii),
      snd (WordEmbedSpace.ReadNextObjStr inpState)
        = Return (Some (strObj, externId)) /\
      line = (externId ++ String c strObj)%string /\
      HasWhiteSpace externId = false /\ isspace c = true /\
      String.length strObj < String.length line /\
      strObj <> line)).
Proof.
  intros Hline Hfile. injection Hline as <-. split; [reflexivity|].
  set (line := VectorSpace_CreateStrFromObj pObj "") in *.
  destruct (HasWhiteSpace line) eqn:Hw.
  - destruct (WordEmbed_ReadNextObjStr_splits inpState line rest Hfile Hw)
      as (externId & strObj & c & Hs & Hn & Hc & ->).
    split; [reflexivity|]. right. split; [reflexivity|].
    exists externId, strObj, c.
    assert (Hlen : String.length strObj < String.length line)
      by (rewrite Hs; apply split_suffix_shorter).
    repeat split; try assumption.
    intros E. rewrite E in Hlen. lia.
  - rewrite (WordEmbed_ReadNextObjStr_no_space inpState line rest Hfile Hw).
    split; [reflexivity|]. left. split; reflexivity.
Qed.

(** The payload text [1 2] written with the empty identifier: reading
    gives the identifier [1] and the record [2]. *)
Lemma WordEmbed_empty_identifier_read_back_witness :
  "1 2"%string = VectorSpace_CreateStrFromObj (mkObject 1%Z None [Byte.x01; Byte.x02]) "" /\
  fst (WordEmbedSpace.ReadNextObjStr (mkInputState ["1 2"%string] 0))
    = mkInputState [] 1 /\
  ((HasWhiteSpace "1 2" = false /\
    snd (WordEmbedSpace.ReadNextObjStr (mkInputState ["1 2"%string] 0))
      = Raise (runtime_error "No white space in line #1 line: 'strObj'")) \/
   (HasWhiteSpace "1 2" = true /\
    exists (externId strObj : string) (c : ascii),
      snd (WordEmbedSpace.ReadNextObjStr (mkInputState ["1 2"%string] 0))
        = Return (Some (strObj, externId)) /\
      "1 2"%string = (externId ++ String c strObj)%string /\
      HasWhiteSpace externId = false /\ isspace c = true /\
      String.length strObj < String.length "1 2" /\
      strObj <> "1 2"%string)).
Proof.
  assert (Hline : WordEmbedSpace.CreateStrFromObj
                    (mkObject 1%Z None [Byte.x01; Byte.x02]) "" = Return "1 2"%string)
    by reflexivity.
  exact (WordEmbed_empty_identifier_read_back
           (mkObject 1%Z None [Byte.x01; Byte.x02])
           (mkInputState ["1 2"%string] 0) "1 2" [] Hline eq_refl).
Defined.

(** What is read there. *)
Lemma WordEmbed_empty_identifier_read_back_example :
  WordEmbedSpace.CreateStrFromObj (mkObject 1%Z None [Byte.x01; Byte.x02]) ""
    = Return "1 2"%string /\
  WordEmbedSpace.ReadNextObjStr (mkInputState ["1 2"%string] 0)
    = (mkInputState [] 1, Return (Some ("2"%string, "1"%string))).
Proof. split; reflexivity. Qed.

(** ** The line counter *)

(** X9.  Both [ReadNextObjStr] keep count of the file: the lines read so
    far and the lines still to be read add up to the same number before
    and after a call, be it a call that returns a record, one that
    meets the end of the data, or one of the word-embedding space that
    throws on a line without whitespace (that line is consumed and
    counted all the same). *)
Theorem ReadNextObjStr_counts_lines (inpState : DataFileInputState) :
  line_num_ (fst (SpaceSparseVector.ReadNextObjStr inpState))
    + length (inp_file_ (fst (SpaceSparseVector.ReadNextObjStr inpState)))
  = line_num_ inpState + length (inp_file_ inpState) /\
  line_num_ (fst (WordEmbedSpace.ReadNextObjStr inpState))
    + length (inp_file_ (fst (WordEmbedSpace.ReadNextObjStr inpState)))
  = line_num_ inpState + length (inp_file_ inpState).
Proof.
  unfold SpaceSparseVector.ReadNextObjStr, WordEmbedSpace.ReadNextObjStr.
  destruct inpState as [[|line rest] n]; simpl; [split; reflexivity|].
  split; [lia|].
  destruct (WordEmbedSpace.first_space 0 line); simpl; lia.
Qed.

(** X10.  Every call of the word-embedding [ReadNextObjStr].  At the end
    of the data it returns [false] and leaves the state alone.
    Otherwise it takes one line and counts it, and then: a line with
    whitespace is cut at its first whitespace character into an
    identifier without whitespace and the rest; a line without
    whitespace makes it throw an error whose text depends on the line
    number only. *)
Theorem WordEmbed_ReadNextObjStr_outcomes (inpState : DataFileInputState) :
  match inp_file_ inpState with
  | [] => WordEmbedSpace.ReadNextObjStr inpState = (inpState, Return None)
  | line :: rest =>
      fst (WordEmbedSpace.ReadNextObjStr inpState)
        = mkInputState rest (S (line_num_ inpState)) /\
      ((HasWhiteSpace line = true /\
        exists (externId strObj : string) (c : ascii),
          line = (externId ++ String c strObj)%string /\
          HasWhiteSpace externId = false /\ isspace c = true /\
          snd (WordEmbedSpace.ReadNextObjStr inpState)
            = Return (Some (strObj, externId))) \/
       (HasWhiteSpace line = false /\
        snd (WordEmbedSpace.ReadNextObjStr inpState)
          = Raise (runtime_error ("No white space in line #"
                                  ++ dec (N.of_nat (S (line_num_ inpState)))
                                  ++ " line: 'strObj'")%string)))
  end.
Proof.
  destruct (inp_file_ inpState) as [|line rest] eqn:Hf.
  - unfold WordEmbedSpace.ReadNextObjStr. rewrite Hf. reflexivity.
  - destruct (HasWhiteSpace line) eqn:Hw.
    + destruct (WordEmbed_ReadNextObjStr_splits inpState line rest Hf Hw)
        as (externId & strObj & c & Hs & Hn & Hc & ->).
      split; [reflexivity|]. left. split; [reflexivity|].
      exists externId, strObj, c. auto.
    + rewrite (WordEmbed_ReadNextObjStr_no_space inpState line rest Hf Hw).
      split; [reflexivity|]. right. auto.
Qed.

(** ** [Clone] and the phase gate together *)

(** X11.  A word-embedding space that is in the query phase refuses the
    index-time distance, while its clone allows it: on the clone the
    call computes the metric of the original on the same objects, and
    the original stays as it was. *)
Theorem WordEmbed_Clone_reopens_gate {dist_t : Type} `{Kernels dist_t}
    (h : store WordEmbedSpace.t) (this : pointer) (s : Space WordEmbedSpace.t)
    (a b : Object) :
  h !! this = Some s -> bIndexPhase s = false ->
  exists (h' : store WordEmbedSpace.t) (res : pointer) (c : Space WordEmbedSpace.t),
    Clone (dist_t := dist_t) h this = Some (h', res) /\
    h' !! res = Some c /\ h' !! this = Some s /\
    IndexTimeDistance s a b = @Raise dist_t PhaseViolation /\
    IndexTimeDistance c a b = WordEmbedSpace.HiddenDistance (derived s) a b.
Proof.
  intros Hs Hq.
  assert (Hlt : this < length h) by (eapply lookup_lt_Some, Hs).
  set (c := mkSpace true (WordEmbedSpace.mk (WordEmbedSpace.distType_ (derived s)))).
  assert (Hnew : (h ++ [c]) !! length h = Some c)
    by (rewrite lookup_app_r, Nat.sub_diag by lia; reflexivity).
  exists (h ++ [c]), (length h), c.
  split.
  { unfold Clone. rewrite Hs. simpl. unfold WordEmbedSpace.HiddenClone.
    fold c. unfold call_SetIndexPhase. rewrite Hnew. simpl.
    f_equal. f_equal. apply list_insert_id. exact Hnew. }
  split; [exact Hnew|].
  split; [rewrite lookup_app_l by exact Hlt; exact Hs|].
  split; [apply IndexTimeDistance_query_phase, Hq|].
  destruct s as [flag [metric]]. reflexivity.
Qed.

Lemma WordEmbed_Clone_reopens_gate_witness :
  exists (h' : store WordEmbedSpace.t) (res : pointer) (c : Space WordEmbedSpace.t),
    Clone (dist_t := Z) [mkSpace false (WordEmbedSpace.mk kEmbedDistL2)] 0
      = Some (h', res) /\
    h' !! res = Some c /\
    h' !! 0 = Some (mkSpace false (WordEmbedSpace.mk kEmbedDistL2)) /\
    IndexTimeDistance (mkSpace false (WordEmbedSpace.mk kEmbedDistL2))
      (mkObject 1%Z None [Byte.x01; Byte.x02])
      (mkObject 2%Z None [Byte.x04; Byte.x06]) = @Raise Z PhaseViolation /\
    IndexTimeDistance c
      (mkObject 1%Z None [Byte.x01; Byte.x02])
      (mkObject 2%Z None [Byte.x04; Byte.x06]) = Return 25%Z.
Proof.
  exact (WordEmbed_Clone_reopens_gate (dist_t := Z)
           [mkSpace false (WordEmbedSpace.mk kEmbedDistL2)] 0
           (mkSpace false (WordEmbedSpace.mk kEmbedDistL2))
           (mkObject 1%Z None [Byte.x01; Byte.x02])
           (mkObject 2%Z None [Byte.x04; Byte.x06]) eq_refl eq_refl).
Defined.

(** ** The dimension check *)

(** X12.  Whether [HiddenDistance] of a word-embedding space fails its
    dimension check does not depend on the order of the two objects.
    The check that is reported does: with one payload empty and the
    other not, the call fails the first check when the empty payload
    comes first and the second check when it comes second. *)
Theorem WordEmbed_HiddenDistance_mismatch_symmetric {dist_t : Type} `{Kernels dist_t}
    (this : WordEmbedSpace.t) (obj1 obj2 : Object) :
  ((exists f, WordEmbedSpace.HiddenDistance this obj1 obj2 = Raise f /\
              DimensionMismatch f) <->
   (exists f, WordEmbedSpace.HiddenDistance this obj2 obj1 = Raise f /\
              DimensionMismatch f)) /\
  (datalength obj1 = 0 -> 0 < datalength obj2 ->
   WordEmbedSpace.HiddenDistance this obj1 obj2
     = Raise (fatal [(LIB_FATAL, "Check failed: obj1->datalength() > 0"%string)]) /\
   WordEmbedSpace.HiddenDistance this obj2 obj1
     = Raise (fatal [(LIB_FATAL,
                      "Check failed: obj1->datalength() == obj2->datalength()"%string)])).
Proof.
  assert (Hone : forall o1 o2 : Object,
             (exists f, WordEmbedSpace.HiddenDistance this o1 o2 = Raise f /\
                        DimensionMismatch f) <->
             (datalength o1 = 0 \/ datalength o1 <> datalength o2)).
  { intros o1 o2. unfold WordEmbedSpace.HiddenDistance, CHECK.
    destruct (Nat.ltb_spec 0 (datalength o1)) as [L|L]; simpl.
    - destruct (Nat.eqb_spec (datalength o1) (datalength o2)) as [E|E]; simpl.
      + split; [|lia]. intros (f & Hf & [Hd|Hd]); subst f;
          destruct (WordEmbedSpace.distType_ this); discriminate Hf.
      + split; [auto|]. intros _. eexists. split; [reflexivity|].
        right. reflexivity.
    - split; [intros _; lia|]. intros _. eexists. split; [reflexivity|].
      left. reflexivity. }
  split.
  - rewrite (Hone obj1 obj2), (Hone obj2 obj1). lia.
  - intros H1 H2. unfold WordEmbedSpace.HiddenDistance, CHECK. rewrite H1.
    destruct (Nat.ltb_spec 0 (datalength obj2)) as [L|L]; [|lia].
    destruct (Nat.eqb_spec (datalength obj2) 0) as [E|E]; [lia|].
    split; reflexivity.
Qed.

(** ** Reading a whole file *)

Lemma read_records_sparse (lines : list string) (k n : nat) :
  length lines <= n ->
  read_records SpaceSparseVector.ReadNextObjStr n (mkInputState lines k)
    = (map (fun line => (line, ""%string)) lines,
       mkInputState [] (k + length lines)).
Proof.
  revert lines k. induction n as [|n IH]; intros lines k Hn.
  - destruct lines; [|simpl in Hn; lia]. simpl. rewrite Nat.add_0_r. reflexivity.
  - destruct lines as [|line lines]; simpl.
    + rewrite Nat.add_0_r. reflexivity.
    + simpl in Hn. rewrite IH by lia. simpl. repeat f_equal. lia.
Qed.

(** X13.  Opening a file for a sparse space and reading it to the end.
    A file that cannot be opened makes [OpenReadFileHeader] throw, the
    file name being part of the error.  Otherwise the state starts at
    line zero, no header is consumed, and calling [ReadNextObjStr] until
    it returns [false] gives every line of the file as it is, in order,
    each with an empty identifier; the counter ends at the number of
    lines. *)
Theorem Sparse_open_and_read_all `{FileSystem} (inpFileName : string) :
  match open_ifstream inpFileName with
  | None =>
      SpaceSparseVector_OpenReadFileHeader inpFileName
        = Raise (runtime_error
                   ("Cannot open file: " ++ inpFileName ++ " for reading")%string)
  | Some lines =>
      exists inpState : DataFileInputState,
        SpaceSparseVector_OpenReadFileHeader inpFileName = Return inpState /\
        line_num_ inpState = 0 /\
        forall n : nat,
          length lines <= n ->
          read_records SpaceSparseVector.ReadNextObjStr n inpState
            = (map (fun line => (line, ""%string)) lines,
               mkInputState [] (length lines))
  end.
Proof.
  unfold SpaceSparseVector_OpenReadFileHeader, DataFileInputState_ctor.
  destruct (open_ifstream inpFileName) as [lines|]; [|reflexivity].
  eexists. split; [reflexivity|]. split; [reflexivity|].
  intros n Hn. apply (read_records_sparse lines 0 n Hn).
Qed.

(** ** Writing a record to a file and reading the file *)

Lemma no_whitespace_no_line_feed (s : string) :
  HasWhiteSpace s = false -> has_line_feed s = false.
Proof.
  induction s as [|c s IH]; simpl; [reflexivity|].
  intros Hw. apply orb_false_iff in Hw. destruct Hw as [Hc Hs].
  rewrite (IH Hs), orb_false_r.
  destruct (Ascii.eqb_spec c (ascii_of_nat 10)) as [->|]; [discriminate Hc|reflexivity].
Qed.

Lemma has_line_feed_app (a b : string) :
  has_line_feed (a ++ b)%string = has_line_feed a || has_line_feed b.
Proof.
  induction a as [|c a IH]; simpl; [reflexivity|].
  rewrite IH, orb_assoc. reflexivity.
Qed.

(** A line without line feed, ended by a line feed, is the next line
    that [getline] gives. *)
Lemma getlines_line (acc line rest : string) :
  has_line_feed line = false ->
  getlines acc (line ++ endl ++ rest)%string
    = (acc ++ line)%string :: getlines EmptyString rest.
Proof.
  revert acc. induction line as [|c line IH]; intros acc Hl.
  - simpl. rewrite string_app_nil. reflexivity.
  - simpl in Hl. apply orb_false_iff in Hl. destruct Hl as [Hc Hl].
    cbn [String.append getlines]. rewrite Hc, (IH _ Hl), string_app_assoc.
    reflexivity.
Qed.

(** X14.  A record written by [WriteNextObj] with the word-embedding
    [CreateStrFromObj] is read back from the file.  For an identifier
    that is not empty and holds no whitespace, and a payload text
    without line feed, the file that was empty holds one line after the
    call, and [ReadNextObjStr] on that file returns the identifier and
    the payload text that were written, as line one. *)
Theorem WordEmbed_WriteNextObj_then_read `{DenseText}
    (obj : Object) (externId : string) :
  HasWhiteSpace externId = false -> externId <> ""%string ->
  has_line_feed (VectorSpace_CreateStrFromObj obj "") = false ->
  exists outState : DataFileOutputState,
    WriteNextObj WordEmbedSpace.CreateStrFromObj obj externId (mkOutputState "")
      = Return outState /\
    getlines "" (out_file_ outState)
      = [(externId ++ " " ++ VectorSpace_CreateStrFromObj obj "")%string] /\
    WordEmbedSpace.ReadNextObjStr (mkInputState (getlines "" (out_file_ outState)) 0)
      = (mkInputState [] 1,
         Return (Some (VectorSpace_CreateStrFromObj obj "", externId))).
Proof.
  intros Hw Hne Hp.
  assert (Hline : WordEmbedSpace.CreateStrFromObj obj externId
                  = Return (externId ++ " " ++ VectorSpace_CreateStrFromObj obj "")%string).
  { unfold WordEmbedSpace.CreateStrFromObj. rewrite Hw.
    destruct (String.eqb externId "") eqn:E; [apply eqb_empty in E; contradiction|].
    reflexivity. }
  assert (Hlines : getlines ""
                     ("" ++ (externId ++ " " ++ VectorSpace_CreateStrFromObj obj "")
                      ++ endl)%string
                   = [(externId ++ " " ++ VectorSpace_CreateStrFromObj obj "")%string]).
  { change (getlines ""
              ((externId ++ " " ++ VectorSpace_CreateStrFromObj obj "")
               ++ endl ++ "")%string
            = [("" ++ externId ++ " " ++ VectorSpace_CreateStrFromObj obj "")%string]).
    apply getlines_line.
    rewrite !has_line_feed_app, (no_whitespace_no_line_feed _ Hw), Hp. reflexivity. }
  unfold WriteNextObj. rewrite Hline. cbn [bind out_file_].
  eexists. split; [reflexivity|]. cbn [out_file_]. rewrite Hlines.
  split; [reflexivity|].
  unfold WordEmbedSpace.ReadNextObjStr. cbn [inp_file_ line_num_].
  destruct (first_space_after_token externId (VectorSpace_CreateStrFromObj obj "")
              " "%char Hw eq_refl) as (E1 & E2 & E3).
  change (" " ++ ?x)%string with (String " " x).
  rewrite E1, E2, E3. reflexivity.
Qed.

Lemma WordEmbed_WriteNextObj_then_read_witness :
  exists outState : DataFileOutputState,
    WriteNextObj WordEmbedSpace.CreateStrFromObj
      (mkObject 1%Z None [Byte.x01; Byte.x02]) "cat" (mkOutputState "")
      = Return outState /\
    getlines "" (out_file_ outState) = ["cat 1 2"%string] /\
    WordEmbedSpace.ReadNextObjStr (mkInputState (getlines "" (out_file_ outState)) 0)
      = (mkInputState [] 1, Return (Some ("1 2"%string, "cat"%string))).
Proof.
  assert (Hne : "cat"%string <> ""%string) by discriminate.
  assert (Hp : has_line_feed (VectorSpace_CreateStrFromObj
                                (mkObject 1%Z None [Byte.x01; Byte.x02]) "") = false)
    by reflexivity.
  exact (WordEmbed_WriteNextObj_then_read
           (mkObject 1%Z None [Byte.x01; Byte.x02]) "cat" eq_refl Hne Hp).
Defined.

(** X15.  A sparse object goes through a file unchanged.  Take an object
    whose vector is valid, whose values are read back from what is
    written for them, whose vector survives packing, and whose text
    holds no line feed.  [WriteNextObj] on an empty file, then
    [ReadNextObjStr] on that file, then [CreateObjFromStr] on the line
    read, with the state the reading left (line one): the object parsed
    is [ApproxEqual] to the one written. *)
Theorem Sparse_WriteNextObj_then_parse
    {dist_t : Type} `{NumText dist_t} `{LineHelpers} `{SparseStorage dist_t}
    (o : Object) (id : IdType) (label : LabelType) (externId : string) :
  valid_sparse (CreateVectFromObj o) ->
  Forall (fun e => reads_back (val_ e)) (CreateVectFromObj o) ->
  (forall l, CreateVectFromObj (CreateObjFromVect id l (CreateVectFromObj o))
             = CreateVectFromObj o) ->
  has_line_feed (SpaceSparseVector.CreateStrFromObj o externId) = false ->
  exists (outState : DataFileOutputState) (inpState : DataFileInputState)
         (line : string) (o' : Object),
    WriteNextObj (fun obj e => Return (SpaceSparseVector.CreateStrFromObj obj e))
      o externId (mkOutputState "") = Return outState /\
    SpaceSparseVector.ReadNextObjStr
      (mkInputState (getlines "" (out_file_ outState)) 0)
      = (inpState, Some (line, ""%string)) /\
    inpState = mkInputState [] 1 /\
    SpaceSparseVector.CreateObjFromStr id label line (Some inpState) = Return o' /\
    SpaceSparseVector.ApproxEqual o' o = true.
Proof.
  intros [Hsorted Hid] Hval Hstore Hlf.
  assert (Hlines : getlines ""
                     ("" ++ SpaceSparseVector.CreateStrFromObj o externId ++ endl)%string
                   = [SpaceSparseVector.CreateStrFromObj o externId]).
  { change (getlines ""
              (SpaceSparseVector.CreateStrFromObj o externId ++ endl ++ "")%string
            = [("" ++ SpaceSparseVector.CreateStrFromObj o externId)%string]).
    apply getlines_line, Hlf. }
  unfold WriteNextObj. cbn [bind out_file_].
  eexists. eexists. eexists. eexists.
  split; [reflexivity|]. cbn [out_file_]. rewrite Hlines.
  split; [reflexivity|]. split; [reflexivity|].
  unfold SpaceSparseVector.CreateObjFromStr, SpaceSparseVector.CreateStrFromObj.
  rewrite ReadSparseVec_unfold.
  rewrite (tokenize_put_elems _ Hid Hval).
  rewrite (sort_of_sorted _ (id_lt_sorted_le _ Hsorted)).
  rewrite (check_of_strictly_sorted _ Hsorted).
  split; [reflexivity|].
  unfold SpaceSparseVector.ApproxEqual. rewrite Hstore.
  apply bool_decide_eq_true. reflexivity.
Qed.

Lemma Sparse_WriteNextObj_then_parse_witness :
  exists (outState : DataFileOutputState) (inpState : DataFileInputState)
         (line : string) (o' : Object),
    WriteNextObj
      (fun obj e => Return (SpaceSparseVector.CreateStrFromObj (dist_t := literal) obj e))
      (CreateObjFromVect 7%Z None
         [ElemType 5%N "2.0"%string; ElemType 10%N "1.5"%string])
      "" (mkOutputState "") = Return outState /\
    SpaceSparseVector.ReadNextObjStr
      (mkInputState (getlines "" (out_file_ outState)) 0)
      = (inpState, Some (line, ""%string)) /\
    inpState = mkInputState [] 1 /\
    SpaceSparseVector.CreateObjFromStr (dist_t := literal) 8%Z None line (Some inpState)
      = Return o' /\
    SpaceSparseVector.ApproxEqual o'
      (CreateObjFromVect 7%Z None
         [ElemType 5%N "2.0"%string; ElemType 10%N "1.5"%string]) = true.
Proof.
  assert (Hvalid : valid_sparse (CreateVectFromObj
             (CreateObjFromVect 7%Z None
                [ElemType 5%N "2.0"%string; ElemType 10%N "1.5"%string]))).
  { split.
    - change (Sorted (id_lt (dist_t := literal))
                [ElemType 5%N "2.0"%string; ElemType 10%N "1.5"%string]).
      repeat constructor.
    - change (Forall (fun e : SparseVectElem literal => (id_ e <= UINT32_MAX)%N)
                [ElemType 5%N "2.0"%string; ElemType 10%N "1.5"%string]).
      repeat constructor; discriminate. }
  assert (Hback : Forall (fun e : SparseVectElem literal => reads_back (val_ e))
            (CreateVectFromObj
               (CreateObjFromVect 7%Z None
                  [ElemType 5%N "2.0"%string; ElemType 10%N "1.5"%string]))).
  { change (Forall (fun e : SparseVectElem literal => reads_back (val_ e))
              [ElemType 5%N "2.0"%string; ElemType 10%N "1.5"%string]).
    repeat constructor; intros rest [-> | [r ->]]; reflexivity. }
  assert (Hstore : forall l,
            CreateVectFromObj
              (CreateObjFromVect 8%Z l
                 (CreateVectFromObj
                    (CreateObjFromVect 7%Z None
                       [ElemType 5%N "2.0"%string; ElemType 10%N "1.5"%string])))
            = CreateVectFromObj
                (CreateObjFromVect 7%Z None
                   [ElemType 5%N "2.0"%string; ElemType 10%N "1.5"%string]))
    by (intros l; reflexivity).
  assert (Hlf : has_line_feed
                  (SpaceSparseVector.CreateStrFromObj (dist_t := literal)
                     (CreateObjFromVect 7%Z None
                        [ElemType 5%N "2.0"%string; ElemType 10%N "1.5"%string]) "")
                = false) by reflexivity.
  exact (Sparse_WriteNextObj_then_parse (dist_t := literal)
           (CreateObjFromVect 7%Z None
              [ElemType 5%N "2.0"%string; ElemType 10%N "1.5"%string])
           8%Z None "" Hvalid Hback Hstore Hlf).
Defined.

(** The file [data.txt] of the one-file system, and a file that is not
    there. *)
Lemma Sparse_open_and_read_all_witness :
  (exists inpState : DataFileInputState,
     SpaceSparseVector_OpenReadFileHeader "data.txt" = Return inpState /\
     read_records SpaceSparseVector.ReadNextObjStr 5 inpState
       = ([("10 1.5 5 2.0"%string, ""%string); ("7 3"%string, ""%string)],
          mkInputState [] 2)) /\
  SpaceSparseVector_OpenReadFileHeader "none.txt"
    = Raise (runtime_error "Cannot open file: none.txt for reading").
Proof.
  split.
  - destruct (Sparse_open_and_read_all (H := one_file) "data.txt")
      as (inpState & Ho & _ & Hr).
    exists inpState. split; [exact Ho|]. apply (Hr 5). simpl. lia.
  - exact (Sparse_open_and_read_all (H := one_file) "none.txt").
Defined.

(** An empty payload against one of a single byte, in both orders. *)
Lemma WordEmbed_HiddenDistance_mismatch_symmetric_witness :
  WordEmbedSpace.HiddenDistance (dist_t := Z) (WordEmbedSpace.mk kEmbedDistL2)
    (mkObject 1%Z None []) (mkObject 2%Z None [Byte.x04])
    = Raise (fatal [(LIB_FATAL, "Check failed: obj1->datalength() > 0"%string)]) /\
  WordEmbedSpace.HiddenDistance (dist_t := Z) (WordEmbedSpace.mk kEmbedDistL2)
    (mkObject 2%Z None [Byte.x04]) (mkObject 1%Z None [])
    = Raise (fatal [(LIB_FATAL,
                     "Check failed: obj1->datalength() == obj2->datalength()"%string)]).
Proof.
  destruct (WordEmbed_HiddenDistance_mismatch_symmetric (dist_t := Z)
              (WordEmbedSpace.mk kEmbedDistL2)
              (mkObject 1%Z None []) (mkObject 2%Z None [Byte.x04])) as [_ Hm].
  apply Hm; [reflexivity|unfold datalength; simpl; lia].
Defined.
